(** * Crypto performance dashboard: fetch, summarise, combine, export

    A shallow embedding of [main.py].  The program downloads one price
    history per symbol with [yf.download], keeps the usable ones in a
    dictionary, derives a start/end/percent-change table from it and
    exports either that table or the concatenated histories as CSV.

    Modelling decisions, all local to this file:

    - Python floats are IEEE 754 binary64 numbers ([spec_float] with
      precision 53 and maximal exponent 1024): signed zeros, infinities
      and NaN included, every operation rounded to the nearest double,
      ties to even.  [round(x, 2)] and the [.2f] format round the exact
      value of the double to the nearest hundredth, ties to even.
    - Python strings are [string]s whose characters are the code points
      below 256.
    - Pandas frames are objects on a heap ([list Obj], a location is an
      index), so that in-place operations ([data["Symbol"] = sym],
      [reset_index(inplace=True)]) are writes to one location.
    - [yf.download] is an oracle threaded through a [World]; message
      boxes, prints, downloads and file writes are recorded in an event
      log.  The save-file dialog's answer and the outcome of the file
      write are inputs of the export functions.
    - What [to_csv] writes for a frame of prices depends on the column
      index of the frames [yf.download] returns and is not modelled: the
      file is identified by the rows it is made from.
    - The calls that build the chart (lines 115-127) and the summary
      panel (lines 161-188) may raise; whether they do, and how far the
      widget got, is an input of the request.  Destroying widgets,
      building the summary frame (line 157) and showing a message box
      are taken not to raise. *)

From Stdlib Require Import ZArith QArith Qabs Qpower String Ascii List Lia DecimalString.
From Stdlib Require Import SpecFloat.
From stdpp Require Import base list.
Import ListNotations.

Local Open Scope string_scope.
Local Open Scope list_scope.
Local Open Scope nat_scope.

(** ** Numbers: binary64 arithmetic, [round] and the [.2f] format *)

Abbreviation float := spec_float.

Definition prec : Z := 53.
Definition emax : Z := 1024.

Definition fsub : float -> float -> float := SFsub prec emax.
Definition fdiv : float -> float -> float := SFdiv prec emax.
Definition fmul : float -> float -> float := SFmul prec emax.

(** The double of an integer literal. *)
Definition of_Z (z : Z) : float := binary_normalize prec emax z 0 false.

Definition hundred : float := of_Z 100.

(** [x == 0]: true of both zeros, false of NaN. *)
Definition is_zero (x : float) : bool := SFeqb x (S754_zero false).

(** The value [m * 2^e] of a finite double, sign apart. *)
Definition dyadic (m : positive) (e : Z) : Q := (inject_Z (Z.pos m) * 2 ^ e)%Q.

(** The exact value of a double; 0 for the ones that have none. *)
Definition sf_to_Q (x : float) : Q :=
  match x with
  | S754_finite s m e => if s then (- dyadic m e)%Q else dyadic m e
  | _ => 0%Q
  end.

(** Nearest integer, ties to even. *)
Definition round_half_even (q : Q) : Z :=
  let n := Qnum q in
  let d := Z.pos (Qden q) in
  let fl := (n / d)%Z in
  let r := (n mod d)%Z in
  match (2 * r ?= d)%Z with
  | Lt => fl
  | Gt => (fl + 1)%Z
  | Eq => if Z.even fl then fl else (fl + 1)%Z
  end.

(** The double nearest to [k / 100], with sign [s]. *)
Definition hundredths (s : bool) (k : Z) : float :=
  match k with
  | Z.pos p => fdiv (S754_finite s p 0) (S754_finite false 100 0)
  | _ => S754_zero s
  end.

(** [round(x, 2)]: the exact value is rounded to hundredths and the
    result is the nearest double; zeros, infinities and NaN are
    returned as they are. *)
Definition py_round2 (x : float) : float :=
  match x with
  | S754_finite s m e => hundredths s (round_half_even (dyadic m e * 100))
  | _ => x
  end.

Definition digits (n : Z) : string :=
  NilZero.string_of_uint (N.to_uint (Z.to_N n)).

Definition two_digits (n : Z) : string :=
  if (n <? 10)%Z then "0" ++ digits n else digits n.

(** Sign, integer part, point and two decimals of [k] hundredths. *)
Definition two_decimal_text (s : bool) (k : Z) : string :=
  (if s then "-" else "") ++ digits (k / 100) ++ "." ++ two_digits (k mod 100).

(** [f"{x:.2f}"]: the sign is that of the double, also for a zero and
    when the rounded magnitude is zero. *)
Definition format_2f (x : float) : string :=
  match x with
  | S754_nan => "nan"
  | S754_infinity s => if s then "-inf" else "inf"
  | S754_zero s => two_decimal_text s 0
  | S754_finite s m e => two_decimal_text s (round_half_even (dyadic m e * 100))
  end.

(** ** Strings: [str.split(",")] and [str.strip()] *)

(** [str.isspace] on the code points below 256. *)
Definition is_space (c : ascii) : bool :=
  let n := nat_of_ascii c in
  ((9 <=? n) && (n <=? 13)) || ((28 <=? n) && (n <=? 32))
  || (n =? 133) || (n =? 160).

Fixpoint lstrip (s : string) : string :=
  match s with
  | EmptyString => EmptyString
  | String c t => if is_space c then lstrip t else s
  end.

Fixpoint rstrip (s : string) : string :=
  match s with
  | EmptyString => EmptyString
  | String c t =>
      match rstrip t with
      | EmptyString => if is_space c then EmptyString else String c EmptyString
      | t' => String c t'
      end
  end.

Definition strip (s : string) : string := lstrip (rstrip s).

(** [s.split(sep)] for a one-character separator: always at least one
    piece, empty pieces are kept. *)
Fixpoint split (sep : ascii) (s : string) : list string :=
  match s with
  | EmptyString => [EmptyString]
  | String c t =>
      if Ascii.eqb c sep then EmptyString :: split sep t
      else match split sep t with
           | piece :: pieces => String c piece :: pieces
           | [] => [String c EmptyString]
           end
  end.

(** Truthiness of a [str]. *)
Definition truthy (s : string) : bool :=
  match s with EmptyString => false | String _ _ => true end.

(** Line 94:
    [[s.strip() for s in crypto_entry.get().split(",") if s.strip()]] *)
Definition parse_symbols (raw : string) : list string :=
  map strip (List.filter (fun s => truthy (strip s)) (split "," raw)).

(** ** Data model *)

(** One observation of a downloaded history.  [col_Date] is the frame's
    index; [col_Symbol] is absent until line 22 adds the column. *)
Record Row := {
  col_Date : Z;
  col_Close : float;
  col_High : float;
  col_Low : float;
  col_Open : float;
  col_Volume : float;
  col_Symbol : option string
}.

(** One line of [summary_data] (lines 144-149). *)
Record SummaryRow := {
  sr_symbol : string;
  sr_start : float;
  sr_end : float;
  sr_change : string
}.

(** Pandas objects.  [ObjPrices] is a frame indexed by date, [ObjFlat]
    the same rows after [reset_index] has turned the index into a
    column, [ObjSummary] the four-column summary frame. *)
Inductive Obj :=
| ObjPrices (rs : list Row)
| ObjFlat (rs : list Row)
| ObjSummary (t : list SummaryRow).

Abbreviation Heap := (list Obj).
Abbreviation Dict := (list (string * nat)).

(** What one call of [yf.download] does. *)
Inductive Outcome :=
| Raises (e : string)
| ReturnsNone
| ReturnsFrame (rs : list Row).

Inductive Cell :=
| CText (s : string)
| CNum (x : float).

(** The content of a CSV file.  The lines of the summary table are
    modelled; the file of a frame of prices is identified by the rows
    it is written from and by whether the index has been turned into a
    column, its header lines and column order are not modelled. *)
Inductive Csv :=
| CsvLines (lines : list (list Cell))
| CsvOfPrices (index_as_column : bool) (rs : list Row).

Inductive Event :=
| EvDownload (sym period interval : string)
| EvPrint (msg : string)
| EvShowWarning (title msg : string)
| EvShowError (title msg : string)
| EvShowInfo (title msg : string)
| EvWriteCsv (path : string) (csv : Csv)
| EvUncaught (msg : string).

(** Children of [content_frame].  The summary panel is the label frame
    of lines 161-188 with its table and export buttons.  [Unfinished]
    is a widget that an exception left half-built: a canvas that was
    not packed, or a label frame in which no export button exists. *)
Inductive Widget :=
| ChartCanvas (plotted : list string)
| SummaryPanel (table : list SummaryRow)
| Unfinished.

(** How far the summary panel got when one of its calls raised: line
    161 itself raised, or a later call did before any export button
    existed, or a call did after the first export button was created
    (all rows are in the table by then). *)
Inductive PanelProgress :=
| NoFrame
| FrameOnly
| WithButton.

(** What the toolkit does during a request: every call returns, or a
    call of the chart section raises (with or without a canvas created
    by then), or a call of the panel section raises. *)
Inductive Gui :=
| GuiOk
| ChartRaises (e : string) (canvas : bool)
| PanelRaises (e : string) (progress : PanelProgress).

(** The two globals of lines 32-33, the heap they point into, and the
    widgets currently shown. *)
Record State := {
  heap : Heap;
  latest_summary_df : option nat;
  latest_combined_data : option Dict;
  content_frame : list Widget
}.

Definition initial_state : State :=
  {| heap := []; latest_summary_df := None; latest_combined_data := None;
     content_frame := [] |}.

Definition nl : string := String (ascii_of_nat 10) EmptyString.

(** ** Dictionaries

    A [dict] keeps insertion order; assigning to an existing key
    replaces the value where the key already stands. *)
Fixpoint dict_set (k : string) (v : nat) (d : Dict) : Dict :=
  match d with
  | [] => [(k, v)]
  | (k', v') :: t =>
      if String.eqb k k' then (k', v) :: t else (k', v') :: dict_set k v t
  end.

Fixpoint dict_get (k : string) (d : Dict) : option nat :=
  match d with
  | [] => None
  | (k', v) :: t => if String.eqb k k' then Some v else dict_get k t
  end.

Definition keys (d : Dict) : list string := map fst d.
Definition values (d : Dict) : list nat := map snd d.

(** ** Fetcher (lines 14-26) *)

Definition is_nil {A} (l : list A) : bool :=
  match l with [] => true | _ => false end.

Definition tag_row (sym : string) (r : Row) : Row :=
  {| col_Date := col_Date r; col_Close := col_Close r; col_High := col_High r;
     col_Low := col_Low r; col_Open := col_Open r; col_Volume := col_Volume r;
     col_Symbol := Some sym |}.

(** [data["Symbol"] = sym], in place on the object at [l]. *)
Definition set_symbol (l : nat) (sym : string) (h : Heap) : Heap :=
  match h !! l with
  | Some (ObjPrices rs) => <[l := ObjPrices (map (tag_row sym) rs)]> h
  | Some (ObjFlat rs) => <[l := ObjFlat (map (tag_row sym) rs)]> h
  | _ => h
  end.

(** The body of the [try] of lines 17-23, once [yf.download] has
    answered [out]: either the exception it raised, or the heap and
    dictionary after the body.  A returned frame is a new object. *)
Definition fetch_try (sym : string) (out : Outcome) (h : Heap) (data_dict : Dict)
  : string + (Heap * Dict) :=
  match out with
  | Raises e => inl e
  | ReturnsNone => inr (h, data_dict)
  | ReturnsFrame rs =>
      let data := length h in
      let h1 := h ++ [ObjPrices rs] in
      if is_nil rs then inr (h1, data_dict)
      else inr (set_symbol data sym h1, dict_set sym data data_dict)
  end.

Section Fetcher.
Context {World : Type}.
Variable download : World -> string -> string -> string -> World * Outcome.

Record FetchSt := {
  fs_heap : Heap;
  fs_world : World;
  fs_dict : Dict;
  fs_log : list Event
}.

(** One iteration of the loop of line 16, [except] clause included. *)
Definition fetch_one (period interval : string) (s : FetchSt) (sym : string)
  : FetchSt :=
  let '(w', out) := download (fs_world s) sym period interval in
  match fetch_try sym out (fs_heap s) (fs_dict s) with
  | inl e =>
      {| fs_heap := fs_heap s; fs_world := w'; fs_dict := fs_dict s;
         fs_log := fs_log s ++ [EvDownload sym period interval;
                                EvPrint ("Error fetching data for " ++ sym ++ ": " ++ e)] |}
  | inr (h', d') =>
      {| fs_heap := h'; fs_world := w'; fs_dict := d';
         fs_log := fs_log s ++ [EvDownload sym period interval] |}
  end.

Definition fetch_loop (period interval : string) (symbols : list string)
  (s : FetchSt) : FetchSt :=
  fold_left (fetch_one period interval) symbols s.

Definition fetch_crypto_data (h : Heap) (w : World) (symbols : list string)
  (period interval : string) : FetchSt :=
  fetch_loop period interval symbols
    {| fs_heap := h; fs_world := w; fs_dict := []; fs_log := [] |}.

(** The answers the loop receives, in call order. *)
Fixpoint attempts (period interval : string) (symbols : list string) (w : World)
  : list Outcome :=
  match symbols with
  | [] => []
  | sym :: rest =>
      let '(w', out) := download w sym period interval in
      out :: attempts period interval rest w'
  end.
End Fetcher.

Arguments FetchSt World : clear implicits.

(** A download is usable when it returned a frame with at least one row
    (line 21). *)
Definition usable (out : Outcome) : bool :=
  match out with
  | ReturnsFrame (_ :: _) => true
  | _ => false
  end.

Definition download_calls (log : list Event) : list (string * string * string) :=
  flat_map (fun ev => match ev with
                      | EvDownload s p i => [(s, p, i)]
                      | _ => []
                      end) log.

(** ** Summarizer (lines 130-151) *)

(** Line 143. *)
Definition change_pct (start_price end_price : float) : float :=
  fmul (fdiv (fsub end_price start_price) start_price) hundred.

(** The loop body of lines 132-149 for one item.  Every frame of this
    model has a ["Close"] column, so the first test of line 133 is the
    emptiness test alone. *)
Definition summary_entry (sym : string) (rs : list Row) : list SummaryRow :=
  match map col_Close rs with
  | [] => []
  | start_price :: later =>
      let end_price := List.last later start_price in
      if is_zero start_price then []
      else [ {| sr_symbol := sym;
                sr_start := py_round2 start_price;
                sr_end := py_round2 end_price;
                sr_change := format_2f (change_pct start_price end_price) ++ "%" |} ]
  end.

(** An item whose object is not a price frame raises inside the [try]
    of line 132 and is skipped by line 150. *)
Definition summary_item (h : Heap) (item : string * nat) : list SummaryRow :=
  match h !! snd item with
  | Some (ObjPrices rs) => summary_entry (fst item) rs
  | _ => []
  end.

Definition summary_data (h : Heap) (combined_data : Dict) : list SummaryRow :=
  flat_map (summary_item h) combined_data.

(** ** Combiner and exports (lines 39-85) *)

Definition summary_header : list Cell :=
  [CText "Symbol"; CText "Start Price"; CText "End Price"; CText "% Change"].

Definition summary_cells (r : SummaryRow) : list Cell :=
  [CText (sr_symbol r); CNum (sr_start r); CNum (sr_end r); CText (sr_change r)].

(** [df.to_csv(path, index=False)]: the columns only. *)
Definition to_csv (o : Obj) : Csv :=
  match o with
  | ObjPrices rs => CsvOfPrices false rs
  | ObjFlat rs => CsvOfPrices true rs
  | ObjSummary t => CsvLines (summary_header :: map summary_cells t)
  end.

(** [df.empty] *)
Definition obj_empty (o : Obj) : bool :=
  match o with
  | ObjPrices rs | ObjFlat rs => is_nil rs
  | ObjSummary t => is_nil t
  end.

(** The date-indexed frames behind a list of locations. *)
Fixpoint frames_of (h : Heap) (ls : list nat) : option (list (list Row)) :=
  match ls with
  | [] => Some []
  | l :: t =>
      match h !! l, frames_of h t with
      | Some (ObjPrices rs), Some fs => Some (rs :: fs)
      | _, _ => None
      end
  end.

(** [pd.concat]: raises on an empty collection, otherwise stacks the
    rows in order. *)
Definition pd_concat (frames : list (list Row)) : string + list Row :=
  match frames with
  | [] => inl "No objects to concatenate"
  | _ => inr (List.concat frames)
  end.

(** [df.reset_index(inplace=True)] on the object at [l]. *)
Definition reset_index (l : nat) (h : Heap) : Heap :=
  match h !! l with
  | Some (ObjPrices rs) => <[l := ObjFlat rs]> h
  | _ => h
  end.

(** Lines 80-81: the concatenation is a new object, whose index is then
    materialised in place.  Returns the heap and [combined_df]. *)
Definition combine (h : Heap) (d : Dict) : string + (Heap * nat) :=
  match frames_of h (values d) with
  | None => inl "cannot concatenate object"
  | Some frames =>
      match pd_concat frames with
      | inl e => inl e
      | inr rs =>
          let combined_df := length h in
          inr (reset_index combined_df (h ++ [ObjPrices rs]), combined_df)
      end
  end.

Definition with_heap (st : State) (h : Heap) : State :=
  {| heap := h; latest_summary_df := latest_summary_df st;
     latest_combined_data := latest_combined_data st;
     content_frame := content_frame st |}.

Definition csv_at (h : Heap) (l : nat) : Csv :=
  match h !! l with Some o => to_csv o | None => CsvLines [] end.

Definition no_data_summary : Event :=
  EvShowInfo "No Data" "Please fetch data before exporting.".

(** Lines 39-58.  [file_path] is the dialog's answer (empty when
    cancelled), [io] the exception [to_csv] raises, if any. *)
Definition export_summary_to_csv (st : State) (file_path : string)
  (io : option string) : State * list Event :=
  match latest_summary_df st with
  | None => (st, [no_data_summary])
  | Some l =>
      match heap st !! l with
      | None => (st, [EvUncaught "latest_summary_df"])
      | Some o =>
          if obj_empty o then (st, [no_data_summary])
          else if truthy file_path then
            match io with
            | None =>
                (st, [EvWriteCsv file_path (to_csv o);
                      EvShowInfo "Export Successful"
                        ("Summary exported successfully to:" ++ nl ++ file_path)])
            | Some e =>
                (st, [EvShowError "Error" ("Failed to export CSV:" ++ nl ++ e)])
            end
          else (st, [])
      end
  end.

(** Lines 64-85. *)
Definition export_full_data_to_csv (st : State) (file_path : string)
  (io : option string) : State * list Event :=
  match latest_combined_data st with
  | None =>
      (st, [EvShowInfo "No Data"
              "Please fetch data before exporting full historical dataset."])
  | Some d =>
      if truthy file_path then
        match combine (heap st) d with
        | inl e =>
            (st, [EvShowError "Error" ("Failed to export full dataset:" ++ nl ++ e)])
        | inr (h', combined_df) =>
            match io with
            | None =>
                (with_heap st h',
                 [EvWriteCsv file_path (csv_at h' combined_df);
                  EvShowInfo "Export Successful"
                    ("Full historical data exported to:" ++ nl ++ file_path)])
            | Some e =>
                (with_heap st h',
                 [EvShowError "Error" ("Failed to export full dataset:" ++ nl ++ e)])
            end
        end
      else (st, [])
  end.

(** ** The fetch request (lines 91-191) *)

Definition input_error : Event :=
  EvShowWarning "Input Error" "Please enter at least one cryptocurrency symbol.".

Definition no_valid_data : Event :=
  EvShowError "Error"
    "No valid data fetched. Check your symbols or internet connection.".

Definition no_summary : Event :=
  EvShowInfo "Info" "No summary data available for selected symbols.".

(** Line 191. *)
Definition gui_error (e : string) : Event :=
  EvShowError "Error" ("An error occurred: " ++ e).

(** The widgets a failed panel section leaves below the chart. *)
Definition panel_left (progress : PanelProgress) (summary : list SummaryRow)
  : list Widget :=
  match progress with
  | NoFrame => []
  | FrameOnly => [Unfinished]
  | WithButton => [SummaryPanel summary]
  end.

Section Dashboard.
Context {World : Type}.
Variable download : World -> string -> string -> string -> World * Outcome.

(** Lines 102-191, from the fetcher's answer on. *)
Definition show_fetched (st : State) (gui : Gui) (f : FetchSt World)
  : State * World * list Event :=
  let combined_data := fs_dict f in
  if is_nil combined_data then
    (with_heap st (fs_heap f), fs_world f, fs_log f ++ [no_valid_data])
  else
    (* line 108 stores the histories, lines 111-112 destroy the widgets *)
    match gui with
    | ChartRaises e canvas =>
        (* a call of lines 115-127 raises, line 190 catches *)
        ({| heap := fs_heap f;
            latest_summary_df := latest_summary_df st;
            latest_combined_data := Some combined_data;
            content_frame := if canvas then [Unfinished] else [] |},
         fs_world f, fs_log f ++ [gui_error e])
    | _ =>
        let chart := ChartCanvas (keys combined_data) in
        let summary := summary_data (fs_heap f) combined_data in
        if is_nil summary then
          ({| heap := fs_heap f;
              latest_summary_df := latest_summary_df st;
              latest_combined_data := Some combined_data;
              content_frame := [chart] |},
           fs_world f, fs_log f ++ [no_summary])
        else
          (* lines 157-158 store the table, lines 161-188 show it *)
          let summary_df := length (fs_heap f) in
          match gui with
          | PanelRaises e progress =>
              ({| heap := fs_heap f ++ [ObjSummary summary];
                  latest_summary_df := Some summary_df;
                  latest_combined_data := Some combined_data;
                  content_frame := chart :: panel_left progress summary |},
               fs_world f, fs_log f ++ [gui_error e])
          | _ =>
              ({| heap := fs_heap f ++ [ObjSummary summary];
                  latest_summary_df := Some summary_df;
                  latest_combined_data := Some combined_data;
                  content_frame := [chart; SummaryPanel summary] |},
               fs_world f, fs_log f)
          end
    end.

Definition display_crypto_data (st : State) (w : World)
  (entry period interval : string) (gui : Gui) : State * World * list Event :=
  let symbols := parse_symbols entry in
  if is_nil symbols then (st, w, [input_error])
  else show_fetched st gui
         (fetch_crypto_data download (heap st) w symbols period interval).

(** What the user can trigger. *)
Inductive Action :=
| ActShow (entry period interval : string) (gui : Gui)
| ActExportSummary (file_path : string) (io : option string)
| ActExportFull (file_path : string) (io : option string).

Definition step (st : State) (w : World) (a : Action)
  : State * World * list Event :=
  match a with
  | ActShow entry period interval gui =>
      display_crypto_data st w entry period interval gui
  | ActExportSummary file_path io =>
      let '(st', log) := export_summary_to_csv st file_path io in (st', w, log)
  | ActExportFull file_path io =>
      let '(st', log) := export_full_data_to_csv st file_path io in (st', w, log)
  end.

Fixpoint run (st : State) (w : World) (acts : list Action) : State * World :=
  match acts with
  | [] => (st, w)
  | a :: rest => let '(st', w', _) := step st w a in run st' w' rest
  end.

(** States the program can be in: any sequence of actions from the
    state at start-up. *)
Inductive reachable : State -> World -> Prop :=
| reachable_start w : reachable initial_state w
| reachable_step st w a :
    reachable st w ->
    reachable (fst (fst (step st w a))) (snd (fst (step st w a))).
End Dashboard.

(** The export buttons exist exactly while a summary panel is shown
    (lines 179-188 create them inside it, lines 111-112 destroy it).  A
    panel that an exception interrupted counts as soon as one of the
    buttons exists. *)
Definition is_summary_panel (wd : Widget) : bool :=
  match wd with SummaryPanel _ => true | ChartCanvas _ | Unfinished => false end.

Definition has_export_buttons (st : State) : bool :=
  existsb is_summary_panel (content_frame st).

(** The stored table is the summary of the stored histories. *)
Definition coherent (st : State) : Prop :=
  forall d l, latest_combined_data st = Some d -> latest_summary_df st = Some l ->
    heap st !! l = Some (ObjSummary (summary_data (heap st) d)).

(** ** A data source for examples *)

Definition row_at (t : Z) (c : float) : Row :=
  {| col_Date := t; col_Close := c; col_High := c; col_Low := c; col_Open := c;
     col_Volume := of_Z 1; col_Symbol := None |}.

Definition demo_row (t : Z) (c : Z) : Row := row_at t (of_Z c).

Definition demo_download (w : nat) (sym period interval : string) : nat * Outcome :=
  (S w,
   if String.eqb sym "AAA" then
     ReturnsFrame [demo_row 1 10; demo_row 2 12; demo_row 3 15]
   else if String.eqb sym "BBB" then ReturnsFrame []
   else if String.eqb sym "ZZZ" then ReturnsFrame [demo_row 1 0; demo_row 2 5]
   else if String.eqb sym "ONE" then ReturnsFrame [demo_row 1 7]
   else if String.eqb sym "ERR" then Raises "connection reset"
   else ReturnsNone).

(** ** Predicates used in the statements *)

(** Every entry of the dictionary points to a non-empty price frame
    whose rows carry the entry's symbol. *)
Definition dict_ok (h : Heap) (d : Dict) : Prop :=
  forall s l, In (s, l) d ->
    exists rs, h !! l = Some (ObjPrices rs) /\ rs <> []
               /\ Forall (fun r => col_Symbol r = Some s) rs.

(** [k] is the integer nearest to [q], the even one of the two when [q]
    lies half way. *)
Definition nearest_even (q : Q) (k : Z) : Prop :=
  (2 * Z.abs (Qnum q - k * Z.pos (Qden q)) <= Z.pos (Qden q))%Z
  /\ ((2 * Z.abs (Qnum q - k * Z.pos (Qden q)) = Z.pos (Qden q))%Z ->
      Z.even k = true).

(** Reading of "the percent change is computed exactly": the value of
    the double the code computes is the rational
    (last - first) / first * 100 of the values of the closes. *)
Definition percent_is_exact (first last_close : float) : Prop :=
  (sf_to_Q (change_pct first last_close)
   == (sf_to_Q last_close - sf_to_Q first) / sf_to_Q first * 100)%Q.

(** Reading of "a series of one observation is shown with equal prices
    and a change of 0.00%". *)
Definition single_shows_zero (sym : string) (r : Row) : Prop :=
  forall row, In row (summary_entry sym [r]) ->
    sr_start row = sr_end row /\ sr_change row = "0.00%".

(** Reading of "a failure while fetching a symbol excludes that symbol
    from the result": no symbol of which a download raised is a key. *)
Definition failed_symbols_excluded {World : Type}
  (download : World -> string -> string -> string -> World * Outcome)
  (period interval : string) (symbols : list string) (w : World) : Prop :=
  forall sym e,
    In (sym, Raises e)
       (List.combine symbols (attempts download period interval symbols w)) ->
    ~ In sym (keys (fs_dict (fetch_crypto_data download [] w symbols
                               period interval))).

(** The symbol input as the interface describes it: split on commas,
    trim each piece, discard the empty ones. *)
Definition spec_parse (raw : string) : list string :=
  List.filter truthy (map strip (split "," raw)).

(** What holds of the stored values in every state the program reaches:
    stored histories form a non-empty dictionary of non-empty frames
    with distinct keys, the stored table is a non-empty summary frame,
    and while the export buttons exist the table is the summary of the
    stored histories. *)
Definition snapshot_inv (st : State) : Prop :=
  (forall d, latest_combined_data st = Some d ->
     d <> [] /\ dict_ok (heap st) d /\ NoDup (keys d))
  /\ (forall l, latest_summary_df st = Some l ->
        exists t, heap st !! l = Some (ObjSummary t) /\ t <> [])
  /\ (has_export_buttons st = true ->
        exists d l, latest_combined_data st = Some d
                    /\ latest_summary_df st = Some l
                    /\ heap st !! l = Some (ObjSummary (summary_data (heap st) d))).

Definition occurrences (s : string) (l : list string) : nat :=
  length (List.filter (String.eqb s) l).

(** Reading of "every duplicate occurrence is reported" for a request
    whose downloads all succeed with a non-zero first close: a symbol is
    a key, and has a summary row, as many times as it was asked for. *)
Definition every_occurrence_reported (symbols : list string) (d : Dict)
  (summary : list SummaryRow) : Prop :=
  forall s, occurrences s (keys d) = occurrences s symbols
            /\ occurrences s (map sr_symbol summary) = occurrences s symbols.

(** Two requests in a row: one for a symbol with closes 10, 12, 15, then
    one for a symbol with closes 0, 5. *)
Definition two_requests : list Action :=
  [ActShow "AAA" "1mo" "1d" GuiOk; ActShow "ZZZ" "1mo" "1d" GuiOk].

Definition after_two_requests : State * nat :=
  run demo_download initial_state 0 two_requests.

Definition twice_requested : FetchSt nat :=
  fetch_crypto_data demo_download [] 0 ["AAA"; "AAA"] "1mo" "1d".

Definition first_request : list Action :=
  [ActShow "AAA, BBB" "1mo" "1d" GuiOk].

Definition after_first_request : State * nat :=
  run demo_download initial_state 0 first_request.

Definition one_row_fetch : FetchSt nat :=
  fetch_crypto_data demo_download [] 0 ["ONE"] "1mo" "1d".

Definition zero_start_fetch : FetchSt nat :=
  fetch_crypto_data demo_download [] 0 ["ZZZ"] "1mo" "1d".

(** ** Companions of the string and number functions

    Used only to state what [parse_symbols], [fetch_crypto_data] and
    the summary compute. *)

(** [sep.join(pieces)] *)
Fixpoint join (sep : ascii) (pieces : list string) : string :=
  match pieces with
  | [] => EmptyString
  | p :: rest =>
      match rest with
      | [] => p
      | _ :: _ => p ++ String sep (join sep rest)
      end
  end.

(** [c in s] *)
Fixpoint contains (c : ascii) (s : string) : bool :=
  match s with
  | EmptyString => false
  | String c' t => Ascii.eqb c' c || contains c t
  end.

Fixpoint all_space (s : string) : bool :=
  match s with
  | EmptyString => true
  | String c t => is_space c && all_space t
  end.

Definition str_head (s : string) : option ascii :=
  match s with EmptyString => None | String c _ => Some c end.

Fixpoint str_last (s : string) : option ascii :=
  match s with
  | EmptyString => None
  | String c t => match str_last t with None => Some c | Some c' => Some c' end
  end.

(** A symbol as the user means it: not empty, no comma, no white
    space at either end. *)
Definition clean_symbol (s : string) : bool :=
  truthy s && negb (contains "," s)
  && match str_head s with Some c => negb (is_space c) | None => true end
  && match str_last s with Some c => negb (is_space c) | None => true end.

(** The text starts with a minus sign. *)
Definition is_negative_text (s : string) : bool :=
  match s with String "-" _ => true | _ => false end.

(** The sign of a double, if it has one. *)
Definition sign_of (x : float) : option bool :=
  match x with
  | S754_nan => None
  | S754_zero s | S754_infinity s | S754_finite s _ _ => Some s
  end.

Definition is_digit (c : ascii) : bool :=
  let n := nat_of_ascii c in (48 <=? n) && (n <=? 57).

(** What the fetcher is expected to log for the symbols and the answers
    they got: a download each, and a print after each one that raised. *)
Definition expected_log (period interval : string)
  (asked : list (string * Outcome)) : list Event :=
  flat_map (fun so =>
              EvDownload (fst so) period interval
              :: match snd so with
                 | Raises e =>
                     [EvPrint ("Error fetching data for " ++ fst so ++ ": " ++ e)]
                 | _ => []
                 end) asked.

(** The symbols whose download was usable, in request order. *)
Definition usable_symbols (asked : list (string * Outcome)) : list string :=
  map fst (List.filter (fun so => usable (snd so)) asked).

(** The files an event log wrote. *)
Definition written_files (log : list Event) : list (string * Csv) :=
  flat_map (fun ev => match ev with
                      | EvWriteCsv path csv => [(path, csv)]
                      | _ => []
                      end) log.

Definition is_dialog (ev : Event) : bool :=
  match ev with
  | EvShowWarning _ _ | EvShowError _ _ | EvShowInfo _ _ => true
  | _ => false
  end.

(** What is on screen is what is stored: the chart plots the keys of
    the stored histories, and a summary panel shows the stored table.
    Nothing is said of what an unfinished widget shows. *)
Definition screen_matches_store (st : State) : Prop :=
  match content_frame st with
  | [] | [Unfinished] => True
  | [ChartCanvas plotted] | [ChartCanvas plotted; Unfinished] =>
      exists d, latest_combined_data st = Some d /\ plotted = keys d
  | [ChartCanvas plotted; SummaryPanel table] =>
      exists d l, latest_combined_data st = Some d /\ plotted = keys d
                  /\ latest_summary_df st = Some l
                  /\ heap st !! l = Some (ObjSummary table)
  | _ => False
  end.

(** ** Inputs for the instances *)

Definition typed_entry : string := "BTC-USD, ETH-USD ,".

Definition mixed_symbols : list string := ["AAA"; "BBB"; "ERR"; "ONE"].

Definition rising_rows : list Row := [demo_row 1 10; demo_row 2 12; demo_row 3 15].

Definition falling_rows : list Row := [demo_row 1 10; demo_row 2 8].

Definition returning_rows : list Row :=
  [demo_row 1 10; demo_row 2 12; demo_row 3 10].

(** A request whose chart section raises. *)
Definition failing_request : Action :=
  ActShow "ZZZ" "1mo" "1d" (ChartRaises "no display" false).

(** A data source that answers its first call and fails afterwards. *)
Definition flaky_download (w : nat) (sym period interval : string)
  : nat * Outcome :=
  (S w, match w with 0 => ReturnsFrame rising_rows | S _ => Raises "timeout" end).

Definition summary_row_of (sym : string) (first last_close : float) : SummaryRow :=
  {| sr_symbol := sym; sr_start := py_round2 first; sr_end := py_round2 last_close;
     sr_change := format_2f (change_pct first last_close) ++ "%" |}.

(** * Properties *)

(** ** Parsing and formatting on examples *)

Example parse_default :
  parse_symbols "BTC-USD, ETH-USD, SOL-USD" = ["BTC-USD"; "ETH-USD"; "SOL-USD"].
Proof. reflexivity. Qed.

Example parse_blanks : parse_symbols " , ,,  " = [].
Proof. reflexivity. Qed.

Example format_examples :
  format_2f (of_Z 50) = "50.00"
  /\ format_2f (binary_normalize prec emax (-1) (-10) false) = "-0.00"
  /\ format_2f (binary_normalize prec emax 1 (-3) false) = "0.12"
  /\ format_2f (binary_normalize prec emax 3 (-3) false) = "0.38"
  /\ format_2f (S754_zero true) = "-0.00"
  /\ format_2f S754_nan = "nan" /\ format_2f (S754_infinity true) = "-inf".
Proof. repeat split; vm_compute; reflexivity. Qed.

(** [round(0.125, 2)] is the double next below 0.12, and
    [round(10.0, 2)] is 10.0. *)
Example round_examples :
  py_round2 (binary_normalize prec emax 1 (-3) false)
  = S754_finite false 8646911284551352 (-56)
  /\ py_round2 (of_Z 10) = of_Z 10
  /\ py_round2 (S754_zero true) = S754_zero true /\ py_round2 S754_nan = S754_nan.
Proof. repeat split; vm_compute; reflexivity. Qed.

(** ** Heap and dictionary facts *)

Lemma lookup_fresh (h : Heap) (o : Obj) : (h ++ [o]) !! length h = Some o.
Proof. by apply list_lookup_middle. Qed.

Lemma lookup_extend (h ext : Heap) (l : nat) (o : Obj) :
  h !! l = Some o -> (h ++ ext) !! l = Some o.
Proof. intros H. rewrite lookup_app_l; [done | by eapply lookup_lt_Some]. Qed.

Lemma insert_fresh (h : Heap) (o o' : Obj) :
  <[length h := o']> (h ++ [o]) = h ++ [o'].
Proof.
  rewrite insert_app_r_alt by lia. by rewrite Nat.sub_diag.
Qed.

Lemma set_symbol_fresh (h : Heap) (sym : string) (rs : list Row) :
  set_symbol (length h) sym (h ++ [ObjPrices rs])
  = h ++ [ObjPrices (map (tag_row sym) rs)].
Proof. unfold set_symbol. rewrite lookup_fresh. apply insert_fresh. Qed.

Lemma reset_index_fresh (h : Heap) (rs : list Row) :
  reset_index (length h) (h ++ [ObjPrices rs]) = h ++ [ObjFlat rs].
Proof. unfold reset_index. rewrite lookup_fresh. apply insert_fresh. Qed.

Lemma keys_dict_set (k : string) (v : nat) (d : Dict) :
  keys (dict_set k v d) = if existsb (String.eqb k) (keys d) then keys d
                          else keys d ++ [k].
Proof.
  induction d as [|[k' v'] t IH]; simpl; [done|].
  destruct (String.eqb k k') eqn:E; simpl; [done|].
  unfold keys in *. rewrite IH. by destruct (existsb _ _).
Qed.

Lemma existsb_eqb_In (k : string) (ks : list string) :
  existsb (String.eqb k) ks = true <-> In k ks.
Proof.
  rewrite existsb_exists. split.
  - intros (x & Hx & E). apply String.eqb_eq in E. by subst.
  - intros H. exists k. split; [done | apply String.eqb_refl].
Qed.

Lemma In_keys_dict_set (k k0 : string) (v : nat) (d : Dict) :
  In k0 (keys (dict_set k v d)) <-> k0 = k \/ In k0 (keys d).
Proof.
  rewrite keys_dict_set. destruct (existsb _ _) eqn:E.
  - apply existsb_eqb_In in E. split; [by right | intros [->|]; done].
  - rewrite in_app_iff. simpl. intuition congruence.
Qed.

Lemma NoDup_keys_dict_set (k : string) (v : nat) (d : Dict) :
  NoDup (keys d) -> NoDup (keys (dict_set k v d)).
Proof.
  intros H. rewrite keys_dict_set. destruct (existsb _ _) eqn:E; [done|].
  apply NoDup_app. repeat split; [done| |apply NoDup_singleton].
  intros x Hx Hk. apply list_elem_of_In in Hx. apply list_elem_of_In in Hk.
  destruct Hk as [<-|[]]. apply existsb_eqb_In in Hx. congruence.
Qed.

Lemma In_dict_set (k s : string) (v l : nat) (d : Dict) :
  In (s, l) (dict_set k v d) -> (s = k /\ l = v) \/ In (s, l) d.
Proof.
  induction d as [|[k' v'] t IH]; simpl.
  - intros [H|[]]. left. by inversion H.
  - destruct (String.eqb k k') eqn:E; simpl.
    + apply String.eqb_eq in E. subst k'.
      intros [H|H]; [left; by inversion H | right; by right].
    + intros [H|H]; [right; by left|]. destruct (IH H); [by left | right; by right].
Qed.

Lemma dict_set_keeps_others (k s : string) (v l : nat) (d : Dict) :
  s <> k -> In (s, l) d -> In (s, l) (dict_set k v d).
Proof.
  intros Hne. induction d as [|[k' v'] t IH]; simpl; [done|].
  destruct (String.eqb k k') eqn:E.
  - apply String.eqb_eq in E. subst k'.
    intros [H|H]; [inversion H; by subst | by right].
  - intros [H|H]; [by left | right; by apply IH].
Qed.

Lemma dict_get_dict_set_eq (k : string) (v : nat) (d : Dict) :
  dict_get k (dict_set k v d) = Some v.
Proof.
  induction d as [|[k' v'] t IH]; simpl.
  - by rewrite String.eqb_refl.
  - destruct (String.eqb k k') eqn:E; simpl; by rewrite E.
Qed.

Lemma dict_ok_extend (h ext : Heap) (d : Dict) :
  dict_ok h d -> dict_ok (h ++ ext) d.
Proof.
  intros H s l Hin. destruct (H s l Hin) as (rs & Hl & Hne & Htag).
  exists rs. split; [by apply lookup_extend | done].
Qed.

Lemma dict_ok_set (h : Heap) (d : Dict) (sym : string) (rs : list Row) :
  rs <> [] -> dict_ok h d ->
  dict_ok (h ++ [ObjPrices (map (tag_row sym) rs)]) (dict_set sym (length h) d).
Proof.
  intros Hne H s l Hin. apply In_dict_set in Hin as [[-> ->]|Hin].
  - exists (map (tag_row sym) rs). rewrite lookup_fresh. repeat split.
    + destruct rs; [done | discriminate].
    + apply Forall_forall. intros r Hr. apply list_elem_of_In, in_map_iff in Hr.
      by destruct Hr as (r0 & <- & _).
  - by apply (dict_ok_extend h _ d H).
Qed.

Lemma download_calls_app (l1 l2 : list Event) :
  download_calls (l1 ++ l2) = download_calls l1 ++ download_calls l2.
Proof. unfold download_calls. apply flat_map_app. Qed.

(** ** The summarizer *)

(** The row the loop body appends for a frame whose first close is
    [start_price] and whose last close is [end_price]. *)
Lemma summary_entry_cases (sym : string) (rs : list Row) :
  match map col_Close rs with
  | [] => summary_entry sym rs = []
  | start_price :: later =>
      if is_zero start_price then summary_entry sym rs = []
      else summary_entry sym rs =
           [ {| sr_symbol := sym;
                sr_start := py_round2 start_price;
                sr_end := py_round2 (List.last later start_price);
                sr_change :=
                  format_2f (change_pct start_price (List.last later start_price))
                  ++ "%" |} ]
  end.
Proof.
  unfold summary_entry. destruct (map col_Close rs) as [|c later]; [done|].
  by destruct (is_zero c).
Qed.

Lemma summary_item_cases (h : Heap) (item : string * nat) :
  summary_item h item = []
  \/ exists row, summary_item h item = [row] /\ sr_symbol row = fst item.
Proof.
  unfold summary_item. destruct (h !! snd item) as [[rs|rs|t]|]; try by left.
  pose proof (summary_entry_cases (fst item) rs) as H.
  destruct (map col_Close rs) as [|c later]; [by left|].
  destruct (is_zero c); [by left|]. right. rewrite H. by eexists.
Qed.

Lemma summary_symbols_sublist (h : Heap) (d : Dict) :
  sublist (map sr_symbol (summary_data h d)) (keys d).
Proof.
  induction d as [|item t IH]; simpl; [constructor|].
  rewrite map_app. destruct (summary_item_cases h item) as [->|(row & -> & E)].
  - simpl. by apply sublist_cons.
  - simpl. rewrite E. by apply sublist_skip.
Qed.

Lemma summary_symbols_NoDup (h : Heap) (d : Dict) :
  NoDup (keys d) -> NoDup (map sr_symbol (summary_data h d)).
Proof. intros H. eapply sublist_NoDup; [done | apply summary_symbols_sublist]. Qed.

Lemma summary_item_extend (h ext : Heap) (item : string * nat) (o : Obj) :
  h !! snd item = Some o -> summary_item (h ++ ext) item = summary_item h item.
Proof.
  intros H. unfold summary_item. by rewrite (lookup_extend _ _ _ _ H), H.
Qed.

Lemma summary_data_extend (h ext : Heap) (d : Dict) :
  dict_ok h d -> summary_data (h ++ ext) d = summary_data h d.
Proof.
  induction d as [|[s l] t IH]; intros H; simpl; [done|].
  destruct (H s l) as (rs & Hl & _); [by left|].
  rewrite (summary_item_extend h ext (s, l) _ Hl), IH; [done|].
  intros s' l' Hin. apply H. by right.
Qed.

(** ** The fetcher *)

Section FetcherFacts.
Context {World : Type}.
Variable download : World -> string -> string -> string -> World * Outcome.
Variables period interval : string.

Local Abbreviation one_step := (fetch_one download period interval).
Local Abbreviation loop := (fetch_loop download period interval).

(** What one iteration does, by the answer of the data source. *)
Lemma fetch_one_cases (s : FetchSt World) (sym : string) :
  exists w' out, download (fs_world s) sym period interval = (w', out) /\
    one_step s sym =
    match out with
    | Raises e =>
        {| fs_heap := fs_heap s; fs_world := w'; fs_dict := fs_dict s;
           fs_log := fs_log s ++ [EvDownload sym period interval;
                                  EvPrint ("Error fetching data for " ++ sym ++ ": " ++ e)] |}
    | ReturnsNone =>
        {| fs_heap := fs_heap s; fs_world := w'; fs_dict := fs_dict s;
           fs_log := fs_log s ++ [EvDownload sym period interval] |}
    | ReturnsFrame [] =>
        {| fs_heap := fs_heap s ++ [ObjPrices []]; fs_world := w';
           fs_dict := fs_dict s;
           fs_log := fs_log s ++ [EvDownload sym period interval] |}
    | ReturnsFrame rs =>
        {| fs_heap := fs_heap s ++ [ObjPrices (map (tag_row sym) rs)];
           fs_world := w';
           fs_dict := dict_set sym (length (fs_heap s)) (fs_dict s);
           fs_log := fs_log s ++ [EvDownload sym period interval] |}
    end.
Proof.
  unfold fetch_one.
  destruct (download (fs_world s) sym period interval) as [w' out].
  exists w', out. split; [done|].
  destruct out as [e| |[|r rs]]; simpl; try done.
  by rewrite set_symbol_fresh.
Qed.

Lemma fetch_one_heap (s : FetchSt World) (sym : string) :
  exists ext, fs_heap (one_step s sym) = fs_heap s ++ ext.
Proof.
  destruct (fetch_one_cases s sym) as (w' & out & _ & ->).
  destruct out as [e| |[|r rs]]; simpl; try by eexists.
  all: exists []; by rewrite app_nil_r.
Qed.

Lemma fetch_one_dict_ok (s : FetchSt World) (sym : string) :
  dict_ok (fs_heap s) (fs_dict s) ->
  dict_ok (fs_heap (one_step s sym)) (fs_dict (one_step s sym)).
Proof.
  intros H. destruct (fetch_one_cases s sym) as (w' & out & _ & ->).
  destruct out as [e| |[|r rs]]; simpl; try done.
  - by apply dict_ok_extend.
  - by apply (dict_ok_set _ _ sym (r :: rs)).
Qed.

Lemma fetch_one_NoDup (s : FetchSt World) (sym : string) :
  NoDup (keys (fs_dict s)) -> NoDup (keys (fs_dict (one_step s sym))).
Proof.
  intros H. destruct (fetch_one_cases s sym) as (w' & out & _ & ->).
  destruct out as [e| |[|r rs]]; simpl; try done.
  by apply NoDup_keys_dict_set.
Qed.

Lemma fetch_one_keys (s : FetchSt World) (sym k : string) :
  In k (keys (fs_dict (one_step s sym))) -> k = sym \/ In k (keys (fs_dict s)).
Proof.
  destruct (fetch_one_cases s sym) as (w' & out & _ & ->).
  destruct out as [e| |[|r rs]]; simpl; try (by right).
  by intros H%In_keys_dict_set.
Qed.

Lemma fetch_one_calls (s : FetchSt World) (sym : string) :
  download_calls (fs_log (one_step s sym))
  = download_calls (fs_log s) ++ [(sym, period, interval)].
Proof.
  destruct (fetch_one_cases s sym) as (w' & out & _ & ->).
  destruct out as [e| |[|r rs]]; simpl; by rewrite download_calls_app.
Qed.

Lemma fetch_loop_cons (sym : string) (rest : list string) (s : FetchSt World) :
  loop (sym :: rest) s = loop rest (one_step s sym).
Proof. reflexivity. Qed.

Lemma fetch_loop_app (pre post : list string) (s : FetchSt World) :
  loop (pre ++ post) s = loop post (loop pre s).
Proof. apply fold_left_app. Qed.

Lemma fetch_loop_heap (symbols : list string) (s : FetchSt World) :
  exists ext, fs_heap (loop symbols s) = fs_heap s ++ ext.
Proof.
  revert s. induction symbols as [|sym rest IH]; intros s.
  - exists []. simpl. by rewrite app_nil_r.
  - rewrite fetch_loop_cons. destruct (IH (one_step s sym)) as [e2 ->].
    destruct (fetch_one_heap s sym) as [e1 ->]. exists (e1 ++ e2).
    by rewrite app_assoc.
Qed.

Lemma fetch_loop_dict_ok (symbols : list string) (s : FetchSt World) :
  dict_ok (fs_heap s) (fs_dict s) ->
  dict_ok (fs_heap (loop symbols s)) (fs_dict (loop symbols s)).
Proof.
  revert s. induction symbols as [|sym rest IH]; intros s H; [done|].
  rewrite fetch_loop_cons. by apply IH, fetch_one_dict_ok.
Qed.

Lemma fetch_loop_NoDup (symbols : list string) (s : FetchSt World) :
  NoDup (keys (fs_dict s)) -> NoDup (keys (fs_dict (loop symbols s))).
Proof.
  revert s. induction symbols as [|sym rest IH]; intros s H; [done|].
  rewrite fetch_loop_cons. by apply IH, fetch_one_NoDup.
Qed.

Lemma fetch_loop_keys (symbols : list string) (s : FetchSt World) (k : string) :
  In k (keys (fs_dict (loop symbols s))) ->
  In k symbols \/ In k (keys (fs_dict s)).
Proof.
  revert s. induction symbols as [|sym rest IH]; intros s H; [by right|].
  rewrite fetch_loop_cons in H. destruct (IH _ H) as [H1|H1].
  - left. by right.
  - apply fetch_one_keys in H1 as [->|H1]; [left; by left | by right].
Qed.

Lemma fetch_loop_calls (symbols : list string) (s : FetchSt World) :
  download_calls (fs_log (loop symbols s))
  = download_calls (fs_log s) ++ map (fun sym => (sym, period, interval)) symbols.
Proof.
  revert s. induction symbols as [|sym rest IH]; intros s.
  - simpl. by rewrite app_nil_r.
  - rewrite fetch_loop_cons, IH, fetch_one_calls. by rewrite <- app_assoc.
Qed.

Lemma dict_set_not_nil (k : string) (v : nat) (d : Dict) : dict_set k v d <> [].
Proof. destruct d as [|[k' v'] t]; simpl; [done|]. by destruct (String.eqb k k'). Qed.

Lemma fetch_loop_empty (symbols : list string) (s : FetchSt World) :
  fs_dict (loop symbols s) = [] <->
  fs_dict s = []
  /\ forallb (fun o => negb (usable o))
       (attempts download period interval symbols (fs_world s)) = true.
Proof.
  revert s. induction symbols as [|sym rest IH]; intros s; [simpl; tauto|].
  rewrite fetch_loop_cons, IH. simpl.
  destruct (fetch_one_cases s sym) as (w' & out & -> & ->).
  destruct out as [e| |[|r rs]]; simpl; try tauto.
  pose proof (dict_set_not_nil sym (length (fs_heap s)) (fs_dict s)).
  split; intros [? ?]; [tauto | discriminate].
Qed.

(** C2.  Whatever the data source answers, the dictionary returned by
    [fetch_crypto_data] has only requested symbols as keys, every value
    is a price frame with at least one row, and the dictionary is empty
    exactly when no download returned a frame with rows. *)
Theorem fetch_keys_requested_frames_nonempty
  (h : Heap) (w : World) (symbols : list string) :
  let f := fetch_crypto_data download h w symbols period interval in
  (forall s, In s (keys (fs_dict f)) -> In s symbols)
  /\ (forall s l, In (s, l) (fs_dict f) ->
        exists rs, fs_heap f !! l = Some (ObjPrices rs) /\ rs <> [])
  /\ (fs_dict f = [] <->
      forallb (fun o => negb (usable o))
        (attempts download period interval symbols w) = true).
Proof.
  unfold fetch_crypto_data. repeat split.
  - intros s Hs. apply fetch_loop_keys in Hs as [Hs|[]]. exact Hs.
  - intros s l Hin.
    edestruct (fetch_loop_dict_ok symbols) as (rs & Hl & Hne & _); [|exact Hin|].
    + intros ? ? [].
    + by exists rs.
  - intros H. by apply fetch_loop_empty in H as [_ H].
  - intros H. apply fetch_loop_empty. by split.
Qed.

(** C4 as amended.  Every occurrence of a symbol in the input causes
    its own download, in input order, but the returned dictionary has
    one entry per distinct symbol, and so has the summary at most one
    row per symbol. *)
Theorem duplicates_fetched_each_stored_once
  (h : Heap) (w : World) (symbols : list string) :
  let f := fetch_crypto_data download h w symbols period interval in
  download_calls (fs_log f) = map (fun sym => (sym, period, interval)) symbols
  /\ NoDup (keys (fs_dict f))
  /\ NoDup (map sr_symbol (summary_data (fs_heap f) (fs_dict f))).
Proof.
  unfold fetch_crypto_data. repeat split.
  - by rewrite fetch_loop_calls.
  - apply fetch_loop_NoDup. simpl. apply NoDup_nil_2.
  - apply summary_symbols_NoDup, fetch_loop_NoDup. simpl. apply NoDup_nil_2.
Qed.

Lemma fetch_loop_keys_iff (symbols : list string) (s : FetchSt World) (k : string) :
  In k (keys (fs_dict (loop symbols s))) <->
  In k (keys (fs_dict s))
  \/ In k (usable_symbols
             (List.combine symbols
                (attempts download period interval symbols (fs_world s)))).
Proof.
  revert s. induction symbols as [|sym rest IH]; intros s.
  - unfold usable_symbols. simpl. tauto.
  - rewrite fetch_loop_cons, IH. simpl.
    destruct (fetch_one_cases s sym) as (w' & out & -> & ->).
    unfold usable_symbols.
    destruct out as [e| |[|r rs]]; simpl; try tauto.
    rewrite In_keys_dict_set. intuition.
Qed.

Lemma fetch_loop_keeps_others (symbols : list string) (s : FetchSt World)
  (k : string) (l : nat) :
  ~ In k symbols -> In (k, l) (fs_dict s) -> In (k, l) (fs_dict (loop symbols s)).
Proof.
  revert s. induction symbols as [|sym rest IH]; intros s Hnot Hin; [done|].
  rewrite fetch_loop_cons. apply IH; [intros H; apply Hnot; by right|].
  destruct (fetch_one_cases s sym) as (w' & out & _ & ->).
  destruct out as [e| |[|r rs]]; simpl; try done.
  apply dict_set_keeps_others; [|done]. intros ->. apply Hnot. by left.
Qed.

(** C7 as amended.  When the download of one occurrence of a symbol
    raises, the loop goes on from the heap and the dictionary it had
    before that occurrence, with the failure printed, and all symbols
    of the list are downloaded.  Nothing is removed: the keys of the
    result are exactly the symbols of which some download returned a
    frame with rows, so the failed symbol is a key exactly when another
    occurrence of it, before or after, was fetched with rows, and every
    entry gathered before the failure is still in the result unless its
    symbol is requested again. *)
Theorem fetch_failure_is_local
  (h : Heap) (w w' : World) (pre post : list string) (sym e : string) :
  let symbols := pre ++ sym :: post in
  let before := fetch_crypto_data download h w pre period interval in
  let result := fetch_crypto_data download h w symbols period interval in
  download (fs_world before) sym period interval = (w', Raises e) ->
  result = loop post
             {| fs_heap := fs_heap before; fs_world := w';
                fs_dict := fs_dict before;
                fs_log := fs_log before
                          ++ [EvDownload sym period interval;
                              EvPrint ("Error fetching data for " ++ sym ++ ": " ++ e)] |}
  /\ download_calls (fs_log result)
     = map (fun s => (s, period, interval)) symbols
  /\ (forall t, In t (keys (fs_dict result)) <->
        In t (usable_symbols
                (List.combine symbols
                   (attempts download period interval symbols w))))
  /\ (In sym (keys (fs_dict result)) <->
        In sym (usable_symbols
                  (List.combine pre (attempts download period interval pre w)))
        \/ In sym (usable_symbols
                     (List.combine post
                        (attempts download period interval post w'))))
  /\ (forall t l, In (t, l) (fs_dict before) -> ~ In t post ->
        In (t, l) (fs_dict result)).
Proof.
  intros symbols before result Hraise.
  assert (Hres : result = loop post (one_step before sym)).
  { unfold result, before, symbols, fetch_crypto_data.
    by rewrite fetch_loop_app, fetch_loop_cons. }
  destruct (fetch_one_cases before sym) as (w1 & out & Hd & Hone).
  rewrite Hraise in Hd. inversion Hd; subst w1 out; clear Hd.
  split; [by rewrite Hres, Hone|].
  split; [unfold result, fetch_crypto_data; by rewrite fetch_loop_calls|].
  split; [|split].
  - intros t. unfold result, fetch_crypto_data.
    rewrite fetch_loop_keys_iff. simpl. tauto.
  - rewrite Hres, Hone, fetch_loop_keys_iff. simpl.
    unfold before, fetch_crypto_data. rewrite fetch_loop_keys_iff. simpl. tauto.
  - intros t l Hin Hpost. rewrite Hres, Hone.
    by apply fetch_loop_keeps_others.
Qed.
End FetcherFacts.

(** ** Summary rows *)

Lemma hundred_eq : hundred = S754_finite false 7036874417766400 (-46).
Proof. reflexivity. Qed.

(** [x - x] is [+0.0] for every finite double. *)
Lemma fsub_same (s : bool) (m : positive) (e : Z) :
  fsub (S754_finite s m e) (S754_finite s m e) = S754_zero false.
Proof.
  unfold fsub, SFsub, shl_align. rewrite Z.min_id, Z.sub_diag.
  by destruct s.
Qed.

(** [(x - x) / x * 100] is a zero with the sign of [x]. *)
Lemma change_pct_same (s : bool) (m : positive) (e : Z) :
  change_pct (S754_finite s m e) (S754_finite s m e) = S754_zero s.
Proof.
  unfold change_pct. rewrite fsub_same, hundred_eq. simpl. by destruct s.
Qed.

Lemma round_half_even_nearest (q : Q) : nearest_even q (round_half_even q).
Proof.
  unfold nearest_even, round_half_even. destruct q as [n d]. simpl.
  pose proof (Z.div_mod n (Z.pos d) ltac:(lia)) as Hdm.
  pose proof (Z.mod_pos_bound n (Z.pos d) ltac:(lia)) as Hr.
  set (fl := (n / Z.pos d)%Z) in *. set (r := (n mod Z.pos d)%Z) in *.
  destruct (Z.compare_spec (2 * r) (Z.pos d)) as [Heq|Hlt|Hgt].
  - destruct (Z.even fl) eqn:Ev; (split; [nia|]); intros _; [done|].
    rewrite Z.even_add, Ev. reflexivity.
  - split; [nia|]. intros H. nia.
  - split; [nia|]. intros H. nia.
Qed.

Lemma last_cons_same (first : float) (later : list float) :
  List.last (first :: later) first = List.last later first.
Proof. by destruct later. Qed.

Lemma NoDup_keys_functional (d : Dict) (s : string) (l l' : nat) :
  NoDup (keys d) -> In (s, l) d -> In (s, l') d -> l = l'.
Proof.
  induction d as [|[k v] t IH]; simpl; [done|].
  intros Hnd [H1|H1] [H2|H2]; apply NoDup_cons in Hnd as [Hk Hnd].
  - congruence.
  - inversion H1; subst. exfalso. apply Hk, list_elem_of_In.
    by apply (in_map fst) in H2.
  - inversion H2; subst. exfalso. apply Hk, list_elem_of_In.
    by apply (in_map fst) in H1.
  - by apply IH.
Qed.

Lemma In_summary_item (h : Heap) (s : string) (l : nat) (row : SummaryRow) :
  In row (summary_item h (s, l)) <->
  exists rs first later,
    h !! l = Some (ObjPrices rs) /\ map col_Close rs = first :: later
    /\ is_zero first = false
    /\ row = {| sr_symbol := s;
                sr_start := py_round2 first;
                sr_end := py_round2 (List.last later first);
                sr_change :=
                  format_2f (change_pct first (List.last later first)) ++ "%" |}.
Proof.
  unfold summary_item. simpl. split.
  - destruct (h !! l) as [[rs|rs|t]|]; try done.
    pose proof (summary_entry_cases s rs) as H.
    destruct (map col_Close rs) as [|c later] eqn:E; [by rewrite H|].
    destruct (is_zero c) eqn:Ez; rewrite H; [done|].
    intros [<-|[]]. by exists rs, c, later.
  - intros (rs & c & later & -> & E & Hz & ->).
    pose proof (summary_entry_cases s rs) as H. rewrite E, Hz in H.
    rewrite H. by left.
Qed.

Lemma In_summary_data (h : Heap) (d : Dict) (row : SummaryRow) :
  In row (summary_data h d) <->
  exists s l, In (s, l) d /\ In row (summary_item h (s, l)).
Proof.
  unfold summary_data. rewrite in_flat_map. split.
  - intros ([s l] & ? & ?). eauto.
  - intros (s & l & ? & ?). by exists (s, l).
Qed.

Lemma rows_of_absent_symbol (h : Heap) (d : Dict) (s : string) :
  ~ In s (keys d) ->
  List.filter (fun row => String.eqb (sr_symbol row) s) (summary_data h d) = [].
Proof.
  induction d as [|item t IH]; simpl; [done|]. intros Hs.
  rewrite List.filter_app, IH by tauto. rewrite app_nil_r.
  destruct (summary_item_cases h item) as [->|(row & -> & E)]; [done|].
  simpl. rewrite E. destruct (String.eqb (fst item) s) eqn:Ek; [|done].
  apply String.eqb_eq in Ek. tauto.
Qed.

(** With distinct keys, the rows of a symbol are those of its entry. *)
Lemma rows_of_symbol (h : Heap) (d : Dict) (s : string) (l : nat) :
  NoDup (keys d) -> In (s, l) d ->
  List.filter (fun row => String.eqb (sr_symbol row) s) (summary_data h d)
  = summary_item h (s, l).
Proof.
  induction d as [|[k v] t IH]; simpl; [done|]. intros Hnd Hin.
  apply NoDup_cons in Hnd as [Hk Hnd]. rewrite List.filter_app.
  destruct Hin as [[= -> ->]|Hin].
  - rewrite rows_of_absent_symbol by (intros H; by apply Hk, list_elem_of_In).
    rewrite app_nil_r.
    destruct (summary_item_cases h (s, l)) as [->|(row & -> & E)]; [done|].
    simpl in *. by rewrite E, String.eqb_refl.
  - rewrite (IH Hnd Hin).
    destruct (summary_item_cases h (k, v)) as [->|(row & -> & E)]; [done|].
    simpl in *. rewrite E. destruct (String.eqb k s) eqn:Ek; [|done].
    apply String.eqb_eq in Ek. exfalso. apply Hk, list_elem_of_In.
    rewrite Ek. exact (in_map fst _ _ Hin).
Qed.

Lemma two_digits_tens_units (r : Z) :
  (0 <= r < 100)%Z ->
  two_digits r = (digits (r / 10) ++ digits (r mod 10))%string.
Proof.
  intros Hr.
  assert (Hall : forallb (fun n =>
            String.eqb (two_digits (Z.of_nat n))
              (digits (Z.of_nat n / 10) ++ digits (Z.of_nat n mod 10)))
            (seq 0 100) = true) by (vm_compute; reflexivity).
  rewrite forallb_forall in Hall. specialize (Hall (Z.to_nat r)).
  rewrite Z2Nat.id in Hall by lia. apply String.eqb_eq, Hall, in_seq. lia.
Qed.

Lemma is_zero_cases (x : float) :
  is_zero x = match x with S754_zero _ => true | _ => false end.
Proof. destruct x as [s|s| |s m e]; try done; by destruct s. Qed.

(** C1 as amended.  The summary has a row for a symbol exactly when the
    dictionary maps the symbol to a frame with at least one row whose
    first close, unrounded, does not compare equal to 0, that is, is
    neither zero of the doubles.  Each row holds [round(first, 2)],
    [round(last, 2)] and the [.2f] format of the double
    ((last - first) / first) * 100 computed from the unrounded closes in
    binary64 arithmetic, each operation rounded.  On a finite double,
    rounding and formatting both take the integer [k] nearest to 100
    times its exact value, the even one at a tie: [round] returns the
    double quotient of [k] by 100, or a zero with the sign of the
    double, and the format prints the sign, [k / 100], a point and the
    two decimals of [k].  Zeros, infinities and NaN are returned by
    [round] as they are and printed as [0.00], [inf] and [nan], with
    the sign but for NaN. *)
Theorem summary_rows_characterised (h : Heap) (R : Dict) :
  let decimal (n : Z) := NilZero.string_of_uint (N.to_uint (Z.to_N n)) in
  (forall s,
     (exists row, In row (summary_data h R) /\ sr_symbol row = s) <->
     (exists l rs first later,
        In (s, l) R /\ h !! l = Some (ObjPrices rs)
        /\ map col_Close rs = first :: later /\ is_zero first = false))
  /\ (forall x, is_zero x = match x with S754_zero _ => true | _ => false end)
  /\ (forall row, In row (summary_data h R) ->
        exists l rs first later,
          In (sr_symbol row, l) R /\ h !! l = Some (ObjPrices rs)
          /\ map col_Close rs = first :: later /\ is_zero first = false
          /\ sr_start row = py_round2 first
          /\ sr_end row = py_round2 (List.last (map col_Close rs) first)
          /\ sr_change row
             = (format_2f
                  (SFmul 53 1024
                     (SFdiv 53 1024
                        (SFsub 53 1024 (List.last (map col_Close rs) first) first)
                        first)
                     (binary_normalize 53 1024 100 0 false))
                ++ "%")%string)
  /\ (forall x : float,
        match x with
        | S754_finite s m e =>
            exists k,
              nearest_even (inject_Z (Z.pos m) * 2 ^ e * 100)%Q k
              /\ py_round2 x
                 = match k with
                   | Z.pos p =>
                       SFdiv 53 1024 (S754_finite s p 0) (S754_finite false 100 0)
                   | _ => S754_zero s
                   end
              /\ format_2f x
                 = ((if s then "-" else "") ++ decimal (k / 100)%Z ++ "."
                    ++ decimal (k mod 100 / 10)%Z ++ decimal (k mod 10)%Z)%string
        | S754_zero s =>
            py_round2 x = x /\ format_2f x = if s then "-0.00" else "0.00"
        | S754_infinity s =>
            py_round2 x = x /\ format_2f x = if s then "-inf" else "inf"
        | S754_nan => py_round2 x = x /\ format_2f x = "nan"
        end).
Proof.
  cbv zeta. split; [|split; [apply is_zero_cases|split]].
  - intros s. split.
    + intros (row & Hin & <-). apply In_summary_data in Hin as (s & l & Hin & Hrow).
      apply In_summary_item in Hrow as (rs & c & later & Hl & E & Hz & ->).
      simpl. by exists l, rs, c, later.
    + intros (l & rs & c & later & Hin & Hl & E & Hz).
      eexists. split.
      * apply In_summary_data. exists s, l. split; [done|].
        apply In_summary_item. exists rs, c, later. by repeat split.
      * reflexivity.
  - intros row Hin. apply In_summary_data in Hin as (s & l & Hin & Hrow).
    apply In_summary_item in Hrow as (rs & c & later & Hl & E & Hz & ->).
    simpl. exists l, rs, c, later. rewrite E, last_cons_same.
    repeat split; try done.
  - intros [s|s| |s m e]; try (split; [done | by destruct s]); [by split|].
    exists (round_half_even (dyadic m e * 100)).
    split; [apply round_half_even_nearest|]. split; [done|].
    unfold format_2f, two_decimal_text.
    set (k := round_half_even (dyadic m e * 100)).
    rewrite two_digits_tens_units by (apply Z.mod_pos_bound; lia).
    rewrite (Z.mod_mod_divide k 100 10) by (by exists 10%Z).
    reflexivity.
Qed.

(** C6 as amended.  For a frame of exactly one row, the rows the
    summary has for its symbol are: none when the close is a zero; one
    row with equal start and end price and a change of ["0.00%"] when
    the close is finite and positive, ["-0.00%"] when it is finite and
    negative, the percent change being a zero with the sign of the
    close; one row with a change of ["nan%"] when the close is NaN or
    infinite. *)
Theorem single_observation_zero_change
  (h : Heap) (R : Dict) (s : string) (l : nat) (r : Row) :
  NoDup (keys R) -> In (s, l) R -> h !! l = Some (ObjPrices [r]) ->
  List.filter (fun row => String.eqb (sr_symbol row) s) (summary_data h R)
  = match col_Close r with
    | S754_zero _ => []
    | S754_finite sg _ _ =>
        [ {| sr_symbol := s; sr_start := py_round2 (col_Close r);
             sr_end := py_round2 (col_Close r);
             sr_change := if sg then "-0.00%" else "0.00%" |} ]
    | _ =>
        [ {| sr_symbol := s; sr_start := col_Close r; sr_end := col_Close r;
             sr_change := "nan%" |} ]
    end
  /\ (forall sg m e, col_Close r = S754_finite sg m e ->
        change_pct (col_Close r) (col_Close r) = S754_zero sg).
Proof.
  intros Hnd Hin Hl. split.
  - rewrite (rows_of_symbol h R s l Hnd Hin). unfold summary_item. simpl.
    rewrite Hl. unfold summary_entry. simpl.
    destruct (col_Close r) as [sg|sg| |sg m e] eqn:E; simpl; try done.
    + by destruct sg.
    + rewrite change_pct_same. by destruct sg.
  - intros sg m e ->. apply change_pct_same.
Qed.

(** ** Combiner and exports *)

Lemma frames_of_extend (h ext : Heap) (ls : list nat) (fs : list (list Row)) :
  frames_of h ls = Some fs -> frames_of (h ++ ext) ls = Some fs.
Proof.
  revert fs. induction ls as [|l t IH]; intros fs; simpl; [done|].
  destruct (h !! l) as [[rs|rs|tb]|] eqn:E; try done.
  destruct (frames_of h t) as [fs'|]; [|done].
  intros H. by rewrite (lookup_extend _ _ _ _ E), (IH fs').
Qed.

Lemma frames_of_dict_ok (h : Heap) (d : Dict) :
  dict_ok h d ->
  exists fs, frames_of h (values d) = Some fs
             /\ (d <> [] -> fs <> [])
             /\ forall s l rs, In (s, l) d -> h !! l = Some (ObjPrices rs) -> In rs fs.
Proof.
  induction d as [|[k v] t IH]; intros H.
  - exists []. by repeat split.
  - destruct IH as (fs & Hfs & _ & Hin).
    { intros s l ?. apply H. by right. }
    destruct (H k v) as (rs & Hl & _); [by left|].
    exists (rs :: fs). simpl. rewrite Hl, Hfs. repeat split; [done|].
    intros s l rs' [E|Hi] Hl'.
    + inversion E; subst. left. congruence.
    + right. by eapply Hin.
Qed.

Lemma combine_frames (h : Heap) (d : Dict) (fs : list (list Row)) :
  frames_of h (values d) = Some fs -> fs <> [] ->
  combine h d = inr (h ++ [ObjFlat (List.concat fs)], length h).
Proof.
  intros H Hne. unfold combine. rewrite H.
  destruct fs as [|f fs']; [done|]. simpl. by rewrite reset_index_fresh.
Qed.

(** What [combine] does to the heap, whatever the dictionary. *)
Lemma combine_cases (h : Heap) (d : Dict) :
  (exists e, combine h d = inl e)
  \/ (exists fs, frames_of h (values d) = Some fs /\ fs <> []
                 /\ combine h d = inr (h ++ [ObjFlat (List.concat fs)], length h)).
Proof.
  destruct (frames_of h (values d)) as [[|f fs]|] eqn:E.
  - left. unfold combine. rewrite E. by eexists.
  - right. exists (f :: fs). repeat split; [done|]. by apply combine_frames.
  - left. unfold combine. rewrite E. by eexists.
Qed.

(** C5.  A symbol whose frame starts with a close of 0 has no summary
    row, and all rows of its frame are in the combined frame, which is
    the concatenation of every frame of the dictionary in order. *)
Theorem zero_start_skipped_by_summary_kept_by_combine
  (h : Heap) (R : Dict) (s : string) (l : nat) (rs : list Row)
  (first : float) (later : list float) :
  NoDup (keys R) -> dict_ok h R -> In (s, l) R -> h !! l = Some (ObjPrices rs) ->
  map col_Close rs = first :: later -> is_zero first = true ->
  (forall row, In row (summary_data h R) -> sr_symbol row <> s)
  /\ exists frames,
       frames_of h (values R) = Some frames
       /\ combine h R = inr (h ++ [ObjFlat (List.concat frames)], length h)
       /\ forall r, In r rs -> In r (List.concat frames).
Proof.
  intros Hnd Hok Hin Hl E Hz. split.
  - intros row Hrow Hs.
    apply In_summary_data in Hrow as (s' & l' & Hin' & Hrow).
    apply In_summary_item in Hrow as (rs' & c & later' & Hl' & E' & Hnz & ->).
    simpl in Hs. subst s'.
    rewrite (NoDup_keys_functional R s l' l Hnd Hin' Hin) in Hl'.
    rewrite Hl in Hl'. inversion Hl'; subst rs'. rewrite E in E'.
    inversion E'; subst. congruence.
  - destruct (frames_of_dict_ok h R Hok) as (fs & Hfs & Hne & Hmem).
    exists fs. repeat split; [done| |].
    + apply combine_frames; [done|]. apply Hne. by destruct R.
    + intros r Hr. apply in_concat. exists rs. split; [|done]. by eapply Hmem.
Qed.

Lemma export_summary_state (st : State) (file_path : string) (io : option string) :
  fst (export_summary_to_csv st file_path io) = st.
Proof.
  unfold export_summary_to_csv.
  destruct (latest_summary_df st) as [l|]; [|done].
  destruct (heap st !! l) as [o|]; [|done].
  destruct (obj_empty o); [done|].
  destruct (truthy file_path); [|done]. by destruct io.
Qed.

(** The full-history export leaves the state as it is or appends one
    object to the heap. *)
Lemma export_full_state (st : State) (file_path : string) (io : option string) :
  exists ext, fst (export_full_data_to_csv st file_path io)
              = with_heap st (heap st ++ ext).
Proof.
  assert (Hsame : st = with_heap st (heap st ++ [])).
  { rewrite app_nil_r. by destruct st. }
  unfold export_full_data_to_csv.
  destruct (latest_combined_data st) as [d|]; [|by exists []].
  destruct (truthy file_path); [|by exists []].
  destruct (combine_cases (heap st) d) as [[e ->]|(fs & _ & _ & ->)]; [by exists []|].
  destruct io; by eexists.
Qed.

Lemma export_full_twice (st : State) (file_path : string) (io : option string) :
  snd (export_full_data_to_csv
         (fst (export_full_data_to_csv st file_path io)) file_path io)
  = snd (export_full_data_to_csv st file_path io).
Proof.
  unfold export_full_data_to_csv at 2 3.
  destruct (latest_combined_data st) as [d|] eqn:Ed;
    [|simpl; unfold export_full_data_to_csv; by rewrite Ed].
  destruct (truthy file_path) eqn:Ep;
    [|simpl; unfold export_full_data_to_csv; by rewrite Ed, Ep].
  destruct (combine_cases (heap st) d) as [[e He]|(fs & Hfs & Hne & Hc)]; rewrite ?He, ?Hc.
  - simpl. unfold export_full_data_to_csv. by rewrite Ed, Ep, He.
  - assert (Hc2 : combine (heap st ++ [ObjFlat (List.concat fs)]) d
                  = inr ((heap st ++ [ObjFlat (List.concat fs)])
                           ++ [ObjFlat (List.concat fs)],
                         length (heap st ++ [ObjFlat (List.concat fs)]))).
    { apply combine_frames; [|done]. by apply frames_of_extend. }
    destruct io; simpl; unfold export_full_data_to_csv; simpl;
      rewrite Ed, Ep, Hc2; [done|].
    unfold csv_at. by rewrite !lookup_fresh.
Qed.

(** C9.  Neither export changes the two globals or the widgets, and
    every object that was on the heap is still there unchanged: the
    summary export changes nothing at all, the full-history export only
    adds the concatenated frame as a new object.  Exporting again from
    the resulting state gives the same events, file contents included. *)
Theorem exports_are_read_only (st : State) (file_path : string) (io : option string) :
  let after_summary := export_summary_to_csv st file_path io in
  let after_full := export_full_data_to_csv st file_path io in
  fst after_summary = st
  /\ latest_summary_df (fst after_full) = latest_summary_df st
  /\ latest_combined_data (fst after_full) = latest_combined_data st
  /\ content_frame (fst after_full) = content_frame st
  /\ (forall l o, heap st !! l = Some o -> heap (fst after_full) !! l = Some o)
  /\ snd (export_summary_to_csv (fst after_summary) file_path io) = snd after_summary
  /\ snd (export_full_data_to_csv (fst after_full) file_path io) = snd after_full.
Proof.
  intros after_summary after_full. unfold after_summary, after_full.
  destruct (export_full_state st file_path io) as [ext Hfull].
  rewrite export_summary_state, Hfull. repeat split; try done.
  - intros l o H. simpl. by apply lookup_extend.
  - rewrite <- Hfull. apply export_full_twice.
Qed.

(** ** The dashboard *)

Lemma parse_symbols_spec (raw : string) : parse_symbols raw = spec_parse raw.
Proof.
  unfold parse_symbols, spec_parse.
  induction (split "," raw) as [|piece pieces IH]; simpl; [done|].
  destruct (truthy (strip piece)); simpl; by rewrite IH.
Qed.

Lemma snapshot_inv_initial : snapshot_inv initial_state.
Proof. by repeat split. Qed.

Lemma snapshot_inv_extend (st : State) (ext : Heap) :
  snapshot_inv st -> snapshot_inv (with_heap st (heap st ++ ext)).
Proof.
  intros (Hd & Hs & Hb). repeat split; simpl.
  - by apply (Hd d).
  - apply dict_ok_extend. by apply (Hd d).
  - by apply (Hd d).
  - intros l Hl. destruct (Hs l Hl) as (t & Ht & Hne). exists t.
    split; [by apply lookup_extend | done].
  - intros Hbtn. destruct (Hb Hbtn) as (d & l & Ed & El & Hl).
    exists d, l. repeat split; try done.
    rewrite summary_data_extend by by apply (Hd d).
    by apply lookup_extend.
Qed.

Section DashboardFacts.
Context {World : Type}.
Variable download : World -> string -> string -> string -> World * Outcome.

Local Abbreviation display := (display_crypto_data download).
Local Abbreviation fetch := (fetch_crypto_data download).

Lemma fetch_heap (h : Heap) (w : World) (symbols : list string) (p i : string) :
  exists ext, fs_heap (fetch h w symbols p i) = h ++ ext.
Proof. apply (fetch_loop_heap download p i symbols). Qed.

Lemma fetch_dict_ok (h : Heap) (w : World) (symbols : list string) (p i : string) :
  dict_ok (fs_heap (fetch h w symbols p i)) (fs_dict (fetch h w symbols p i)).
Proof. apply fetch_loop_dict_ok. intros ? ? []. Qed.

Lemma fetch_NoDup (h : Heap) (w : World) (symbols : list string) (p i : string) :
  NoDup (keys (fs_dict (fetch h w symbols p i))).
Proof. apply fetch_loop_NoDup. apply NoDup_nil_2. Qed.

(** The ways a fetch request can end once symbols were given. *)
Lemma show_fetched_outcomes (st : State) (gui : Gui) (f : FetchSt World) :
  let d := fs_dict f in
  let summary := summary_data (fs_heap f) d in
  let chart := ChartCanvas (keys d) in
  (d = []
   /\ show_fetched st gui f
      = (with_heap st (fs_heap f), fs_world f, fs_log f ++ [no_valid_data]))
  \/ (d <> []
      /\ exists e canvas, gui = ChartRaises e canvas
      /\ show_fetched st gui f
         = ({| heap := fs_heap f;
               latest_summary_df := latest_summary_df st;
               latest_combined_data := Some d;
               content_frame := if canvas then [Unfinished] else [] |},
            fs_world f, fs_log f ++ [gui_error e]))
  \/ (d <> [] /\ summary = []
      /\ show_fetched st gui f
         = ({| heap := fs_heap f;
               latest_summary_df := latest_summary_df st;
               latest_combined_data := Some d;
               content_frame := [chart] |},
            fs_world f, fs_log f ++ [no_summary]))
  \/ (d <> [] /\ summary <> []
      /\ exists e progress, gui = PanelRaises e progress
      /\ show_fetched st gui f
         = ({| heap := fs_heap f ++ [ObjSummary summary];
               latest_summary_df := Some (length (fs_heap f));
               latest_combined_data := Some d;
               content_frame := chart :: panel_left progress summary |},
            fs_world f, fs_log f ++ [gui_error e]))
  \/ (d <> [] /\ summary <> [] /\ gui = GuiOk
      /\ show_fetched st gui f
         = ({| heap := fs_heap f ++ [ObjSummary summary];
               latest_summary_df := Some (length (fs_heap f));
               latest_combined_data := Some d;
               content_frame := [chart; SummaryPanel summary] |},
            fs_world f, fs_log f)).
Proof.
  cbv zeta. unfold show_fetched.
  destruct (fs_dict f) as [|item d] eqn:Ed; [by left|]. right.
  change (is_nil (item :: d)) with false. cbv iota.
  destruct gui as [|e canvas|e progress].
  - right.
    destruct (summary_data (fs_heap f) (item :: d)) as [|row rows] eqn:Es;
      [left; by repeat split|].
    right. right. by repeat split.
  - left. split; [done|]. by exists e, canvas.
  - right.
    destruct (summary_data (fs_heap f) (item :: d)) as [|row rows] eqn:Es;
      [left; by repeat split|].
    right. left. repeat split; [done..|]. by exists e, progress.
Qed.

Lemma show_fetched_inv (st : State) (gui : Gui) (f : FetchSt World) (ext : Heap) :
  fs_heap f = heap st ++ ext -> dict_ok (fs_heap f) (fs_dict f) ->
  NoDup (keys (fs_dict f)) ->
  snapshot_inv st -> snapshot_inv (fst (fst (show_fetched st gui f))).
Proof.
  intros Hh Hok Hnd Hinv.
  destruct (show_fetched_outcomes st gui f)
    as [[_ ->]|[(Hne & e & c & _ & ->)|[(Hne & Hs & ->)
        |[(Hne & Hs & e & pr & _ & ->)|(Hne & Hs & _ & ->)]]]].
  - rewrite Hh. by apply snapshot_inv_extend.
  - destruct Hinv as (_ & Hsum & _). split; [|split]; simpl.
    + intros d [= <-]. by repeat split.
    + intros l Hl. destruct (Hsum l Hl) as (t & Ht & Hnt). exists t.
      rewrite Hh. split; [by apply lookup_extend | done].
    + unfold has_export_buttons. simpl. by destruct c.
  - destruct Hinv as (_ & Hsum & _). split; [|split]; simpl.
    + intros d [= <-]. by repeat split.
    + intros l Hl. destruct (Hsum l Hl) as (t & Ht & Hnt). exists t.
      rewrite Hh. split; [by apply lookup_extend | done].
    + done.
  - split; [|split]; simpl.
    + intros d [= <-]. repeat split; [done| |done]. by apply dict_ok_extend.
    + intros l [= <-]. eexists. by rewrite lookup_fresh.
    + intros _. do 2 eexists. repeat split.
      by rewrite lookup_fresh, summary_data_extend.
  - split; [|split]; simpl.
    + intros d [= <-]. repeat split; [done| |done]. by apply dict_ok_extend.
    + intros l [= <-]. eexists. by rewrite lookup_fresh.
    + intros _. do 2 eexists. repeat split.
      by rewrite lookup_fresh, summary_data_extend.
Qed.

Lemma display_inv (st : State) (w : World) (entry p i : string) (gui : Gui) :
  snapshot_inv st -> snapshot_inv (fst (fst (display st w entry p i gui))).
Proof.
  intros Hinv. unfold display_crypto_data.
  destruct (is_nil (parse_symbols entry)); [done|].
  destruct (fetch_heap (heap st) w (parse_symbols entry) p i) as [ext Hext].
  eapply show_fetched_inv; eauto using fetch_dict_ok, fetch_NoDup.
Qed.

Lemma step_inv (st : State) (w : World) (a : Action) :
  snapshot_inv st -> snapshot_inv (fst (fst (step download st w a))).
Proof.
  intros Hinv. destruct a as [entry p i gui|path io|path io]; simpl.
  - by apply display_inv.
  - pose proof (export_summary_state st path io) as H.
    destruct (export_summary_to_csv st path io) as [st' log]. simpl in *. by subst.
  - destruct (export_full_state st path io) as [ext H].
    destruct (export_full_data_to_csv st path io) as [st' log]. simpl in *.
    subst. by apply snapshot_inv_extend.
Qed.

Lemma reachable_inv (st : State) (w : World) :
  reachable download st w -> snapshot_inv st.
Proof.
  induction 1 as [w|st w a _ IH]; [apply snapshot_inv_initial | by apply step_inv].
Qed.

Lemma run_reachable (acts : list Action) (st : State) (w : World) :
  reachable download st w ->
  reachable download (fst (run download st w acts)) (snd (run download st w acts)).
Proof.
  revert st w. induction acts as [|a rest IH]; intros st w H; [done|].
  simpl. pose proof (reachable_step download st w a H) as Hs.
  destruct (step download st w a) as [[st' w'] log]. by apply IH.
Qed.

Lemma show_fetched_calls (st : State) (gui : Gui) (f : FetchSt World) :
  download_calls (snd (show_fetched st gui f)) = download_calls (fs_log f).
Proof.
  destruct (show_fetched_outcomes st gui f)
    as [[_ ->]|[(_ & e & c & _ & ->)|[(_ & _ & ->)
        |[(_ & _ & e & pr & _ & ->)|(_ & _ & _ & ->)]]]]; simpl; try done;
    rewrite download_calls_app; simpl; by rewrite app_nil_r.
Qed.

(** C3 as amended.  In every state the program reaches in which the
    export buttons exist, histories and a summary table are both stored
    and the table is the summary computed from those histories. *)
Theorem export_buttons_imply_one_snapshot (st : State) (w : World) :
  reachable download st w -> has_export_buttons st = true ->
  coherent st
  /\ exists d l, latest_combined_data st = Some d
                 /\ latest_summary_df st = Some l
                 /\ heap st !! l = Some (ObjSummary (summary_data (heap st) d)).
Proof.
  intros Hr Hb. destruct (reachable_inv st w Hr) as (_ & _ & Hc).
  destruct (Hc Hb) as (d & l & Ed & El & Hl). split; [|by exists d, l].
  intros d' l' Ed' El'. congruence.
Qed.

(** C10.  In every state the program reaches, stored histories are a
    non-empty dictionary whose frames all exist, so that [pd.concat]
    receives at least one frame and [combine] succeeds; and a request
    whose fetch returns the empty dictionary leaves both globals and
    the widgets as they were. *)
Theorem stored_histories_never_empty (st : State) (w : World) :
  reachable download st w ->
  (forall d, latest_combined_data st = Some d ->
     d <> []
     /\ exists frames,
          frames_of (heap st) (values d) = Some frames /\ frames <> []
          /\ pd_concat frames = inr (List.concat frames)
          /\ combine (heap st) d
             = inr (heap st ++ [ObjFlat (List.concat frames)], length (heap st)))
  /\ (forall entry period interval gui,
        fs_dict (fetch (heap st) w (parse_symbols entry) period interval) = [] ->
        let st' := fst (fst (display st w entry period interval gui)) in
        latest_combined_data st' = latest_combined_data st
        /\ latest_summary_df st' = latest_summary_df st
        /\ content_frame st' = content_frame st).
Proof.
  intros Hr. destruct (reachable_inv st w Hr) as (Hd & _ & _). split.
  - intros d Ed. destruct (Hd d Ed) as (Hne & Hok & _). split; [done|].
    destruct (frames_of_dict_ok (heap st) d Hok) as (fs & Hfs & Hfne & _).
    exists fs. repeat split; [done|by apply Hfne| |].
    + specialize (Hfne Hne). by destruct fs.
    + apply combine_frames; [done | by apply Hfne].
  - intros entry period interval gui Hempty st'. subst st'.
    unfold display_crypto_data. destruct (is_nil (parse_symbols entry)); [done|].
    unfold show_fetched. by rewrite Hempty.
Qed.
End DashboardFacts.

(** ** The scenarios of the test plan, on the example data source *)

Example scenario_partial_data :
  let st := fst after_first_request in
  latest_combined_data st = Some [("AAA", 0)]
  /\ (exists l, latest_summary_df st = Some l
                /\ heap st !! l
                   = Some (ObjSummary [ {| sr_symbol := "AAA"; sr_start := of_Z 10;
                                           sr_end := of_Z 15;
                                           sr_change := "50.00%" |} ]))
  /\ (exists h l rs, combine (heap st) [("AAA", 0)] = inr (h, l)
                     /\ h !! l = Some (ObjFlat rs) /\ length rs = 3
                     /\ Forall (fun r => col_Symbol r = Some "AAA") rs).
Proof.
  repeat split.
  - exists 2. by split.
  - do 3 eexists. split; [reflexivity|]. split; [reflexivity|].
    split; [reflexivity | by repeat constructor].
Qed.

Example scenario_zero_start :
  summary_data (fs_heap zero_start_fetch) (fs_dict zero_start_fetch) = []
  /\ exists h l rs, combine (fs_heap zero_start_fetch) (fs_dict zero_start_fetch)
                    = inr (h, l)
                    /\ h !! l = Some (ObjFlat rs) /\ length rs = 2
                    /\ Forall (fun r => col_Symbol r = Some "ZZZ") rs.
Proof.
  split; [reflexivity|].
  do 3 eexists. split; [reflexivity|]. split; [reflexivity|].
  split; [reflexivity | by repeat constructor].
Qed.

Example scenario_export_before_fetch :
  export_summary_to_csv initial_state "summary.csv" None
  = (initial_state, [no_data_summary]).
Proof. reflexivity. Qed.

(** A request whose chart cannot be drawn, after one that succeeded: the
    new histories are stored beside the old table, the old widgets are
    gone and the error is shown. *)
Example scenario_chart_fails :
  step demo_download (fst after_first_request) (snd after_first_request)
    (ActShow "ONE" "1mo" "1d" (ChartRaises "no display" false))
  = ({| heap := heap (fst after_first_request)
                ++ [ObjPrices [tag_row "ONE" (demo_row 1 7)]];
        latest_summary_df := Some 2;
        latest_combined_data := Some [("ONE", 3)];
        content_frame := [] |},
     3,
     [EvDownload "ONE" "1mo" "1d";
      EvShowError "Error" "An error occurred: no display"]).
Proof. reflexivity. Qed.

(** The same when the panel cannot be finished: the new table is
    stored, and no export button exists. *)
Example scenario_panel_fails :
  let st := fst (fst (step demo_download (fst after_first_request)
                        (snd after_first_request)
                        (ActShow "ONE" "1mo" "1d"
                           (PanelRaises "no font" FrameOnly)))) in
  latest_combined_data st = Some [("ONE", 3)]
  /\ latest_summary_df st = Some 4
  /\ content_frame st = [ChartCanvas ["ONE"]; Unfinished]
  /\ has_export_buttons st = false.
Proof. by repeat split. Qed.

(** Rounding is for display only: closes of 1/1024 and 1/512 both show
    as 0.0, the row is still produced and the change is 100%. *)
Example rounding_is_display_only :
  summary_entry "TINY" [row_at 1 (binary_normalize prec emax 1 (-10) false);
                        row_at 2 (binary_normalize prec emax 1 (-9) false)]
  = [ {| sr_symbol := "TINY"; sr_start := S754_zero false;
         sr_end := S754_zero false; sr_change := "100.00%" |} ].
Proof. reflexivity. Qed.

(** ** Instances and counterexamples *)

(** C3 fails as stated: after a request for a symbol with a usable
    summary and then one for a symbol whose first close is 0, the stored
    histories are those of the second request and the stored table is
    that of the first. *)
Lemma stale_summary_beside_new_histories :
  reachable demo_download (fst after_two_requests) (snd after_two_requests)
  /\ latest_combined_data (fst after_two_requests) = Some [("ZZZ", 2)]
  /\ latest_summary_df (fst after_two_requests) = Some 1
  /\ heap (fst after_two_requests) !! 1
     = Some (ObjSummary [ {| sr_symbol := "AAA"; sr_start := of_Z 10;
                             sr_end := of_Z 15; sr_change := "50.00%" |} ])
  /\ ~ coherent (fst after_two_requests).
Proof.
  split; [apply run_reachable, reachable_start|].
  repeat split. intros H.
  specialize (H [("ZZZ", 2)] 1 eq_refl eq_refl). vm_compute in H. discriminate.
Qed.

(** C4 fails as stated: a symbol asked for twice is downloaded twice
    and stored and summarised once. *)
Lemma duplicate_symbol_is_collapsed :
  download_calls (fs_log twice_requested)
  = [("AAA", "1mo", "1d"); ("AAA", "1mo", "1d")]
  /\ keys (fs_dict twice_requested) = ["AAA"]
  /\ map sr_symbol (summary_data (fs_heap twice_requested) (fs_dict twice_requested))
     = ["AAA"]
  /\ ~ every_occurrence_reported ["AAA"; "AAA"] (fs_dict twice_requested)
         (summary_data (fs_heap twice_requested) (fs_dict twice_requested)).
Proof.
  repeat split. intros H. destruct (H "AAA") as [H1 _].
  vm_compute in H1. discriminate.
Qed.

(** The state after one request that produced a summary: the buttons
    exist and the stored table is the summary of the stored histories. *)
Lemma export_buttons_imply_one_snapshot_witness :
  reachable demo_download (fst after_first_request) (snd after_first_request)
  /\ has_export_buttons (fst after_first_request) = true
  /\ coherent (fst after_first_request)
  /\ exists d l, latest_combined_data (fst after_first_request) = Some d
                 /\ latest_summary_df (fst after_first_request) = Some l
                 /\ heap (fst after_first_request) !! l
                    = Some (ObjSummary (summary_data (heap (fst after_first_request)) d)).
Proof.
  assert (Hr : reachable demo_download (fst after_first_request)
                 (snd after_first_request))
    by apply run_reachable, reachable_start.
  split; [exact Hr|]. split; [reflexivity|].
  exact (export_buttons_imply_one_snapshot demo_download _ _ Hr eq_refl).
Defined.

(** The same state: the stored histories are not the empty dictionary. *)
Lemma stored_histories_never_empty_witness :
  reachable demo_download (fst after_first_request) (snd after_first_request)
  /\ forall d, latest_combined_data (fst after_first_request) = Some d -> d <> [].
Proof.
  assert (Hr : reachable demo_download (fst after_first_request)
                 (snd after_first_request))
    by apply run_reachable, reachable_start.
  split; [exact Hr|]. intros d Hd.
  exact (proj1 (proj1 (stored_histories_never_empty demo_download _ _ Hr) d Hd)).
Defined.

(** C7 fails as stated: the data source answers the first request for a
    symbol and raises at the second; the failure is printed and the
    symbol is a key of the result all the same. *)
Lemma failed_symbol_kept_from_earlier_download :
  ~ failed_symbols_excluded flaky_download "1mo" "1d" ["AAA"; "AAA"] 0
  /\ attempts flaky_download "1mo" "1d" ["AAA"; "AAA"] 0
     = [ReturnsFrame rising_rows; Raises "timeout"]
  /\ fs_log (fetch_crypto_data flaky_download [] 0 ["AAA"; "AAA"] "1mo" "1d")
     = [EvDownload "AAA" "1mo" "1d"; EvDownload "AAA" "1mo" "1d";
        EvPrint "Error fetching data for AAA: timeout"]
  /\ keys (fs_dict (fetch_crypto_data flaky_download [] 0 ["AAA"; "AAA"]
                      "1mo" "1d"))
     = ["AAA"].
Proof.
  repeat split. intros H. apply (H "AAA" "timeout"); vm_compute; tauto.
Qed.

(** A request for three symbols of which the second raises: all three
    are downloaded, the failed one is not a key of the result, and the
    symbol fetched before it still is, with its frame. *)
Lemma fetch_failure_is_local_witness :
  demo_download
    (fs_world (fetch_crypto_data demo_download [] 0 ["AAA"] "1mo" "1d"))
    "ERR" "1mo" "1d" = (2, Raises "connection reset")
  /\ download_calls
       (fs_log (fetch_crypto_data demo_download [] 0 (["AAA"] ++ "ERR" :: ["ONE"])
                  "1mo" "1d"))
     = map (fun s => (s, "1mo", "1d")) (["AAA"] ++ "ERR" :: ["ONE"])
  /\ ~ In "ERR" (keys (fs_dict (fetch_crypto_data demo_download [] 0
                                  (["AAA"] ++ "ERR" :: ["ONE"]) "1mo" "1d")))
  /\ In ("AAA", 0) (fs_dict (fetch_crypto_data demo_download [] 0
                               (["AAA"] ++ "ERR" :: ["ONE"]) "1mo" "1d")).
Proof.
  split; [reflexivity|].
  destruct (fetch_failure_is_local demo_download "1mo" "1d" [] 0 2
              ["AAA"] ["ONE"] "ERR" "connection reset" eq_refl)
    as (_ & Hc & _ & Hk & Hkeep).
  split; [exact Hc|]. split.
  - intros Hin. apply Hk in Hin. vm_compute in Hin.
    destruct Hin as [[H|[]]|[H|[]]]; discriminate H.
  - apply Hkeep; [by left|]. simpl. intuition discriminate.
Defined.

(** C1 fails as stated: from 20000 to 20001 the percent change the code
    computes is a double next to, and not equal to, the exact 1/200, and
    it is shown as 0.01%. *)
Lemma percent_change_is_a_rounded_double :
  ~ percent_is_exact (of_Z 20000) (of_Z 20001)
  /\ summary_entry "UP" [demo_row 1 20000; demo_row 2 20001]
     = [ {| sr_symbol := "UP"; sr_start := of_Z 20000; sr_end := of_Z 20001;
            sr_change := "0.01%" |} ].
Proof.
  split; [|reflexivity]. unfold percent_is_exact. intros H.
  vm_compute in H. discriminate H.
Qed.

(** C6 fails as stated: one observation with a close of -10 is shown
    with a change of -0.00%. *)
Lemma one_negative_close_shows_minus_zero :
  summary_entry "NEG" [demo_row 1 (-10)]
  = [ {| sr_symbol := "NEG"; sr_start := of_Z (-10); sr_end := of_Z (-10);
         sr_change := "-0.00%" |} ]
  /\ ~ single_shows_zero "NEG" (demo_row 1 (-10)).
Proof.
  split; [reflexivity|]. intros H.
  destruct (H _ (or_introl eq_refl)) as [_ Hc]. discriminate Hc.
Qed.

(** A history of one observation with close 7. *)
Lemma single_observation_zero_change_witness :
  NoDup (keys (fs_dict one_row_fetch))
  /\ In ("ONE", 0) (fs_dict one_row_fetch)
  /\ fs_heap one_row_fetch !! 0 = Some (ObjPrices [tag_row "ONE" (demo_row 1 7)])
  /\ List.filter (fun row => String.eqb (sr_symbol row) "ONE")
       (summary_data (fs_heap one_row_fetch) (fs_dict one_row_fetch))
     = [ {| sr_symbol := "ONE"; sr_start := of_Z 7; sr_end := of_Z 7;
            sr_change := "0.00%" |} ].
Proof.
  assert (Hnd : NoDup (keys (fs_dict one_row_fetch))) by apply NoDup_singleton.
  split; [exact Hnd|]. split; [by left|]. split; [reflexivity|].
  exact (proj1 (single_observation_zero_change
                  (fs_heap one_row_fetch) (fs_dict one_row_fetch) "ONE" 0
                  (tag_row "ONE" (demo_row 1 7)) Hnd (or_introl eq_refl) eq_refl)).
Defined.

(** A history with closes 0 and 5: no summary row, both rows combined. *)
Lemma zero_start_skipped_by_summary_kept_by_combine_witness :
  NoDup (keys (fs_dict zero_start_fetch))
  /\ dict_ok (fs_heap zero_start_fetch) (fs_dict zero_start_fetch)
  /\ In ("ZZZ", 0) (fs_dict zero_start_fetch)
  /\ is_zero (of_Z 0) = true
  /\ (forall row, In row (summary_data (fs_heap zero_start_fetch)
                            (fs_dict zero_start_fetch)) ->
        sr_symbol row <> "ZZZ")
  /\ exists frames,
       frames_of (fs_heap zero_start_fetch) (values (fs_dict zero_start_fetch))
       = Some frames
       /\ In (tag_row "ZZZ" (demo_row 2 5)) (List.concat frames).
Proof.
  assert (Hnd : NoDup (keys (fs_dict zero_start_fetch))) by apply NoDup_singleton.
  assert (Hok : dict_ok (fs_heap zero_start_fetch) (fs_dict zero_start_fetch))
    by apply (fetch_dict_ok demo_download).
  split; [exact Hnd|]. split; [exact Hok|]. split; [by left|].
  split; [reflexivity|].
  destruct (zero_start_skipped_by_summary_kept_by_combine
              (fs_heap zero_start_fetch) (fs_dict zero_start_fetch) "ZZZ" 0
              [tag_row "ZZZ" (demo_row 1 0); tag_row "ZZZ" (demo_row 2 5)]
              (of_Z 0) [of_Z 5] Hnd Hok (or_introl eq_refl) eq_refl eq_refl eq_refl)
    as (Hsum & frames & Hf & _ & Hrows).
  split; [exact Hsum|]. exists frames. split; [exact Hf|].
  apply Hrows. right. by left.
Defined.

(** * Further properties of the code *)

(** ** Symbol input (line 94) *)

Lemma split_not_nil (sep : ascii) (s : string) : split sep s <> [].
Proof.
  induction s as [|c t IH]; simpl; [done|].
  destruct (Ascii.eqb c sep); [done|]. by destruct (split sep t).
Qed.

Lemma join_cons_char (sep c : ascii) (p : string) (ps : list string) :
  join sep (String c p :: ps) = String c (join sep (p :: ps)).
Proof. by destruct ps. Qed.

Lemma join_split (sep : ascii) (s : string) : join sep (split sep s) = s.
Proof.
  induction s as [|c t IH]; simpl; [done|].
  destruct (Ascii.eqb c sep) eqn:E.
  - apply Ascii.eqb_eq in E. subst c.
    pose proof (split_not_nil sep t) as Hne.
    destruct (split sep t) as [|p ps] eqn:Es; [done|].
    simpl. simpl in IH. by rewrite IH.
  - pose proof (split_not_nil sep t) as Hne.
    destruct (split sep t) as [|p ps] eqn:Es; [done|].
    by rewrite join_cons_char, IH.
Qed.

Lemma split_pieces_no_sep (sep : ascii) (s piece : string) :
  In piece (split sep s) -> contains sep piece = false.
Proof.
  revert piece. induction s as [|c t IH]; simpl; intros piece.
  - by intros [<-|[]].
  - destruct (Ascii.eqb c sep) eqn:E.
    + intros [<-|H]; [done | by apply IH].
    + destruct (split sep t) as [|p ps] eqn:Es.
      * intros [<-|[]]. simpl. by rewrite E.
      * intros [<-|H]; [|apply IH; by right].
        simpl. rewrite E. apply IH. by left.
Qed.

Lemma split_no_sep (sep : ascii) (p : string) :
  contains sep p = false -> split sep p = [p].
Proof.
  induction p as [|c t IH]; simpl; [done|].
  intros H. apply orb_false_iff in H as [Hc Ht]. rewrite Hc, IH; done.
Qed.

Lemma split_append (sep : ascii) (a b : string) :
  split sep (a ++ String sep b) = split sep a ++ split sep b.
Proof.
  induction a as [|c t IH]; simpl.
  - by rewrite Ascii.eqb_refl.
  - destruct (Ascii.eqb c sep); [by rewrite IH|].
    rewrite IH. pose proof (split_not_nil sep t).
    by destruct (split sep t).
Qed.

Lemma split_join (sep : ascii) (pieces : list string) :
  pieces <> [] -> Forall (fun p => contains sep p = false) pieces ->
  split sep (join sep pieces) = pieces.
Proof.
  induction pieces as [|p rest IH]; [done|]. intros _ Hall.
  apply Forall_cons in Hall as [Hp Hrest].
  destruct rest as [|q rest'].
  - simpl. by apply split_no_sep.
  - change (join sep (p :: q :: rest'))
      with (p ++ String sep (join sep (q :: rest')))%string.
    rewrite split_append, IH, split_no_sep; done.
Qed.

Lemma lstrip_spec (s : string) :
  exists a, s = (a ++ lstrip s)%string /\ all_space a = true.
Proof.
  induction s as [|c t (a & Ha & Hs)]; [by exists EmptyString|].
  simpl. destruct (is_space c) eqn:E.
  - exists (String c a). simpl. rewrite E, Hs. by rewrite <- Ha.
  - by exists EmptyString.
Qed.

Lemma rstrip_spec (s : string) :
  exists b, s = (rstrip s ++ b)%string /\ all_space b = true.
Proof.
  induction s as [|c t (b & Hb & Hs)]; [by exists EmptyString|].
  simpl. destruct (rstrip t) as [|c' t'] eqn:Et.
  - simpl in Hb. subst t. destruct (is_space c) eqn:E.
    + exists (String c b). simpl. by rewrite E, Hs.
    + by exists b.
  - exists b. simpl. by rewrite Hb at 1.
Qed.

Lemma lstrip_head (s : string) (c : ascii) :
  str_head (lstrip s) = Some c -> is_space c = false.
Proof.
  induction s as [|c0 t IH]; simpl; [done|].
  destruct (is_space c0) eqn:E; [done|]. simpl. congruence.
Qed.

Lemma rstrip_last (s : string) (c : ascii) :
  str_last (rstrip s) = Some c -> is_space c = false.
Proof.
  revert c. induction s as [|c0 t IH]; intros c; simpl; [done|].
  destruct (rstrip t) as [|c' t'] eqn:Et.
  - destruct (is_space c0) eqn:E; simpl; [done | congruence].
  - simpl. simpl in IH. destruct (str_last t') as [c''|]; intros [= <-]; by apply IH.
Qed.

Lemma lstrip_last (s : string) (c : ascii) :
  str_last (lstrip s) = Some c -> str_last s = Some c.
Proof.
  induction s as [|c0 t IH]; simpl; [done|].
  destruct (is_space c0); [|done]. intros H. by rewrite (IH H).
Qed.

Lemma contains_lstrip (c : ascii) (s : string) :
  contains c s = false -> contains c (lstrip s) = false.
Proof.
  induction s as [|c0 t IH]; simpl; [done|]. intros H.
  destruct (is_space c0); [|done]. apply orb_false_iff in H as [_ H]. by apply IH.
Qed.

Lemma contains_rstrip (c : ascii) (s : string) :
  contains c s = false -> contains c (rstrip s) = false.
Proof.
  induction s as [|c0 t IH]; simpl; [done|]. intros H.
  apply orb_false_iff in H as [H0 H]. specialize (IH H).
  destruct (rstrip t) as [|c' t'].
  - destruct (is_space c0); simpl; [done | by rewrite H0].
  - simpl. simpl in IH. by rewrite H0, IH.
Qed.

Lemma str_last_None (s : string) : str_last s = None -> s = EmptyString.
Proof. destruct s as [|c t]; simpl; [done|]. by destruct (str_last t). Qed.

Lemma lstrip_clean (s : string) :
  match str_head s with Some c => negb (is_space c) | None => true end = true ->
  lstrip s = s.
Proof. destruct s as [|c t]; simpl; [done|]. by destruct (is_space c). Qed.

Lemma rstrip_clean (s : string) :
  match str_last s with Some c => negb (is_space c) | None => true end = true ->
  rstrip s = s.
Proof.
  induction s as [|c t IH]; simpl; [done|].
  destruct (str_last t) as [c'|] eqn:El.
  - intros H. rewrite IH by done. destruct t; [done|done].
  - apply str_last_None in El. subst t. simpl. by destruct (is_space c).
Qed.

Lemma strip_clean (s : string) : clean_symbol s = true -> strip s = s.
Proof.
  unfold clean_symbol, strip. intros H.
  apply andb_true_iff in H as [H Hl]. apply andb_true_iff in H as [_ Hh].
  rewrite (rstrip_clean s Hl). by apply lstrip_clean.
Qed.

Lemma In_parse_symbols (entry sym : string) :
  In sym (parse_symbols entry) <->
  exists piece, In piece (split "," entry) /\ sym = strip piece
                /\ truthy sym = true.
Proof.
  unfold parse_symbols. rewrite in_map_iff. split.
  - intros (piece & <- & H). apply filter_In in H as [H1 H2]. by exists piece.
  - intros (piece & H1 & -> & H2). exists piece. split; [done|].
    by apply filter_In.
Qed.

(** X1.  Every symbol handed to the fetcher is clean: it is not empty,
    contains no comma and has no white space at either end. *)
Theorem parsed_symbols_are_clean (entry sym : string) :
  In sym (parse_symbols entry) -> clean_symbol sym = true.
Proof.
  intros H. apply In_parse_symbols in H as (piece & Hin & -> & Ht).
  unfold clean_symbol. rewrite Ht. simpl.
  apply split_pieces_no_sep in Hin.
  unfold strip at 1. rewrite contains_lstrip by by apply contains_rstrip.
  simpl. apply andb_true_iff. split.
  - unfold strip. destruct (str_head (lstrip (rstrip piece))) as [c|] eqn:E; [|done].
    by rewrite (lstrip_head _ _ E).
  - unfold strip. destruct (str_last (lstrip (rstrip piece))) as [c|] eqn:E; [|done].
    apply lstrip_last in E. by rewrite (rstrip_last _ _ E).
Qed.

(** X2.  Every symbol handed to the fetcher is one of the
    comma-separated pieces of the input with nothing but white space
    removed around it, and the pieces joined by commas are the input. *)
Theorem parsed_symbols_come_from_input (entry sym : string) :
  In sym (parse_symbols entry) ->
  join "," (split "," entry) = entry
  /\ exists piece a b,
       In piece (split "," entry) /\ piece = (a ++ sym ++ b)%string
       /\ all_space a = true /\ all_space b = true.
Proof.
  intros H. split; [apply join_split|].
  apply In_parse_symbols in H as (piece & Hin & -> & _).
  destruct (rstrip_spec piece) as (b & Hb & Hsb).
  destruct (lstrip_spec (rstrip piece)) as (a & Ha & Hsa).
  exists piece, a, b. repeat split; try done.
  unfold strip. rewrite Hb at 1. rewrite Ha at 1.
  clear. induction a as [|c a IH]; simpl; [done | by rewrite IH].
Qed.

(** X3.  Typing clean symbols separated by commas gives exactly those
    symbols, in the same order, duplicates included. *)
Theorem parse_join_round_trip (symbols : list string) :
  Forall (fun s => clean_symbol s = true) symbols ->
  parse_symbols (join "," symbols) = symbols.
Proof.
  intros Hall. destruct symbols as [|s0 rest]; [done|].
  unfold parse_symbols. rewrite split_join; [|done|].
  - induction Hall as [|s l Hs Hl IH]; [done|]. simpl.
    pose proof (strip_clean s Hs) as Hstrip. rewrite Hstrip.
    unfold clean_symbol in Hs. apply andb_true_iff in Hs as [Hs _].
    apply andb_true_iff in Hs as [Hs _]. apply andb_true_iff in Hs as [Hs _].
    rewrite Hs. simpl. by rewrite Hstrip, IH.
  - eapply Forall_impl; [done|]. intros s Hs. unfold clean_symbol in Hs.
    apply andb_true_iff in Hs as [Hs _]. apply andb_true_iff in Hs as [Hs _].
    apply andb_true_iff in Hs as [_ Hs]. by apply negb_true_iff.
Qed.

(** X4.  Parsing distributes over a comma: the symbols of [a,b] are
    those of [a] followed by those of [b]. *)
Theorem parse_symbols_comma (a b : string) :
  parse_symbols (a ++ String "," b) = parse_symbols a ++ parse_symbols b.
Proof.
  unfold parse_symbols. by rewrite split_append, List.filter_app, map_app.
Qed.

(** ** More on the fetcher (lines 14-26) *)

Lemma dict_get_dict_set_ne (k k' : string) (v : nat) (d : Dict) :
  k <> k' -> dict_get k (dict_set k' v d) = dict_get k d.
Proof.
  intros Hne. induction d as [|[k0 v0] t IH]; simpl.
  - destruct (String.eqb k k') eqn:E; [|done]. by apply String.eqb_eq in E.
  - destruct (String.eqb k' k0) eqn:E0; simpl; [|by rewrite IH].
    apply String.eqb_eq in E0. subst k0.
    destruct (String.eqb k k') eqn:E; [|done]. by apply String.eqb_eq in E.
Qed.

Section FetcherMore.
Context {World : Type}.
Variable download : World -> string -> string -> string -> World * Outcome.
Variables period interval : string.

Local Abbreviation one_step := (fetch_one download period interval).
Local Abbreviation loop := (fetch_loop download period interval).
Local Abbreviation asked_from symbols w :=
  (List.combine symbols (attempts download period interval symbols w)).

Lemma loop_log (symbols : list string) (s : FetchSt World) :
  fs_log (loop symbols s)
  = fs_log s ++ expected_log period interval (asked_from symbols (fs_world s)).
Proof.
  revert s. induction symbols as [|sym rest IH]; intros s.
  - simpl. by rewrite app_nil_r.
  - rewrite fetch_loop_cons, IH. simpl.
    destruct (fetch_one_cases download period interval s sym)
      as (w' & out & -> & ->).
    destruct out as [e| |[|r rs]]; simpl; by rewrite <- app_assoc.
Qed.

Lemma loop_provenance (symbols : list string) (st : FetchSt World)
  (s : string) (l : nat) :
  In (s, l) (fs_dict (loop symbols st)) ->
  In (s, l) (fs_dict st)
  \/ exists rs, rs <> []
       /\ In (s, ReturnsFrame rs) (asked_from symbols (fs_world st))
       /\ fs_heap (loop symbols st) !! l = Some (ObjPrices (map (tag_row s) rs)).
Proof.
  revert st. induction symbols as [|sym rest IH]; intros st; [by left|].
  rewrite fetch_loop_cons. intros Hin. simpl.
  destruct (fetch_loop_heap download period interval rest (one_step st sym))
    as [ext Hext].
  destruct (IH _ Hin) as [Hprev|(rs & Hne & Hasked & Hl)]; clear IH.
  - destruct (fetch_one_cases download period interval st sym)
      as (w' & out & -> & Hone).
    rewrite Hone in Hprev, Hext |- *.
    destruct out as [e| |[|r rs]]; simpl in Hprev; try by left.
    apply In_dict_set in Hprev as [[-> ->]|Hprev]; [|by left].
    right. exists (r :: rs). repeat split; [done | by left |].
    rewrite Hext. simpl. apply lookup_extend, lookup_fresh.
  - right. exists rs. repeat split; [done| |done].
    destruct (fetch_one_cases download period interval st sym)
      as (w' & out & -> & Hone).
    right. rewrite Hone in Hasked. by destruct out as [e| |[|r rs']].
Qed.

Lemma loop_dict_get_other (symbols : list string) (st : FetchSt World)
  (sym : string) :
  ~ In sym symbols ->
  dict_get sym (fs_dict (loop symbols st)) = dict_get sym (fs_dict st).
Proof.
  revert st. induction symbols as [|s0 rest IH]; intros st Hnot; [done|].
  rewrite fetch_loop_cons, IH by (intros H; apply Hnot; by right).
  destruct (fetch_one_cases download period interval st s0) as (w' & out & _ & ->).
  destruct out as [e| |[|r rs]]; simpl; try done.
  apply dict_get_dict_set_ne. intros ->. apply Hnot. by left.
Qed.

Lemma loop_keys_distinct (symbols : list string) (st : FetchSt World) :
  NoDup symbols -> (forall k, In k symbols -> ~ In k (keys (fs_dict st))) ->
  keys (fs_dict (loop symbols st))
  = keys (fs_dict st) ++ usable_symbols (asked_from symbols (fs_world st)).
Proof.
  revert st. induction symbols as [|sym rest IH]; intros st Hnd Hfresh.
  - simpl. by rewrite app_nil_r.
  - apply NoDup_cons in Hnd as [Hsym Hnd].
    assert (Hk : existsb (String.eqb sym) (keys (fs_dict st)) = false).
    { destruct (existsb _ _) eqn:E; [|done]. apply existsb_eqb_In in E.
      exfalso. apply (Hfresh sym); [by left | done]. }
    rewrite fetch_loop_cons, IH; [|done|].
    + unfold usable_symbols. simpl.
      destruct (fetch_one_cases download period interval st sym)
        as (w' & out & -> & ->).
      destruct out as [e| |[|r rs]]; simpl; try done.
      rewrite keys_dict_set, Hk. by rewrite <- app_assoc.
    + intros k Hk' Hin. apply fetch_one_keys in Hin as [->|Hin].
      * apply Hsym. by apply list_elem_of_In.
      * apply (Hfresh k); [by right | done].
Qed.

(** X5.  The fetcher's log is exactly one download per requested symbol,
    in order, each followed by an error print when, and only when, that
    download raised; a missing or empty answer is skipped silently and
    nothing else is logged. *)
Theorem fetch_log_is_downloads_and_error_prints
  (h : Heap) (w : World) (symbols : list string) :
  fs_log (fetch_crypto_data download h w symbols period interval)
  = expected_log period interval
      (List.combine symbols (attempts download period interval symbols w)).
Proof. unfold fetch_crypto_data. by rewrite loop_log. Qed.

(** X6.  Fetching never alters an object that was already on the heap:
    the in-place column assignment of line 22 only reaches the frame
    just downloaded. *)
Theorem fetch_keeps_existing_objects
  (h : Heap) (w : World) (symbols : list string) (l : nat) (o : Obj) :
  h !! l = Some o ->
  fs_heap (fetch_crypto_data download h w symbols period interval) !! l = Some o.
Proof.
  intros H. unfold fetch_crypto_data.
  destruct (fetch_loop_heap download period interval symbols
              {| fs_heap := h; fs_world := w; fs_dict := []; fs_log := [] |})
    as [ext ->].
  by apply lookup_extend.
Qed.

(** X7.  Every frame in the result is a non-empty frame that the data
    source returned for that very symbol, changed in nothing but the
    Symbol column, which holds the symbol in every row. *)
Theorem fetched_frames_are_downloads_tagged
  (h : Heap) (w : World) (symbols : list string) (s : string) (l : nat) :
  let f := fetch_crypto_data download h w symbols period interval in
  In (s, l) (fs_dict f) ->
  exists rs, rs <> []
    /\ In (s, ReturnsFrame rs)
         (List.combine symbols (attempts download period interval symbols w))
    /\ fs_heap f !! l = Some (ObjPrices (map (tag_row s) rs))
    /\ Forall (fun r => col_Symbol r = Some s) (map (tag_row s) rs).
Proof.
  intros f Hin. apply loop_provenance in Hin as [[]|(rs & Hne & Ha & Hl)].
  exists rs. repeat split; try done.
  apply Forall_forall. intros r Hr. apply list_elem_of_In, in_map_iff in Hr.
  by destruct Hr as (r0 & <- & _).
Qed.

(** X8.  When a symbol is requested several times, the entry kept is
    the frame of its last usable download: a usable download of [sym]
    that is not followed by another request for [sym] is what the
    result holds for [sym]. *)
Theorem last_usable_download_wins
  (h : Heap) (w w' : World) (pre post : list string) (sym : string)
  (r : Row) (rs : list Row) :
  let before := fetch_crypto_data download h w pre period interval in
  let result := fetch_crypto_data download h w (pre ++ sym :: post) period interval in
  download (fs_world before) sym period interval = (w', ReturnsFrame (r :: rs)) ->
  ~ In sym post ->
  exists l, dict_get sym (fs_dict result) = Some l
            /\ fs_heap result !! l
               = Some (ObjPrices (map (tag_row sym) (r :: rs))).
Proof.
  intros before result Hd Hpost.
  assert (Hres : result = loop post (one_step before sym)).
  { unfold result, before, fetch_crypto_data.
    by rewrite fetch_loop_app, fetch_loop_cons. }
  destruct (fetch_one_cases download period interval before sym)
    as (w1 & out & Hd' & Hone).
  rewrite Hd in Hd'. inversion Hd'; subst w1 out; clear Hd'.
  exists (length (fs_heap before)). rewrite Hres. split.
  - rewrite loop_dict_get_other by done. rewrite Hone. simpl.
    apply dict_get_dict_set_eq.
  - destruct (fetch_loop_heap download period interval post (one_step before sym))
      as [ext ->].
    rewrite Hone. simpl. apply lookup_extend, lookup_fresh.
Qed.

(** X9.  For a request without repeated symbols, the keys of the result
    are the symbols whose download was usable, in request order. *)
Theorem keys_are_usable_symbols_in_order
  (h : Heap) (w : World) (symbols : list string) :
  NoDup symbols ->
  keys (fs_dict (fetch_crypto_data download h w symbols period interval))
  = usable_symbols (List.combine symbols (attempts download period interval symbols w)).
Proof.
  intros Hnd. unfold fetch_crypto_data.
  rewrite loop_keys_distinct; [done | done | by intros k _ []].
Qed.
End FetcherMore.

(** ** More on the summary (lines 130-151) *)

(** Rounding to nearest keeps the sign: the result of an operation on a
    non-negative mantissa is a zero, a finite number or an infinity of
    the sign asked for. *)
Lemma shr_1_nonneg (mrs : shr_record) :
  (0 <= shr_m mrs)%Z -> (0 <= shr_m (shr_1 mrs))%Z.
Proof. destruct mrs as [[|[p|p|]|p] r s]; simpl; lia. Qed.

Lemma iter_shr_1_nonneg (p : positive) (mrs : shr_record) :
  (0 <= shr_m mrs)%Z -> (0 <= shr_m (SpecFloat.iter_pos shr_1 p mrs))%Z.
Proof.
  revert mrs. induction p as [p IH|p IH|]; intros mrs H; simpl.
  - apply IH, IH. by apply shr_1_nonneg.
  - by apply IH, IH.
  - by apply shr_1_nonneg.
Qed.

Lemma shr_fexp_nonneg (m e : Z) (l : location) :
  (0 <= m)%Z -> (0 <= shr_m (fst (shr_fexp prec emax m e l)))%Z.
Proof.
  intros H. unfold shr_fexp, shr.
  assert (H0 : (0 <= shr_m (shr_record_of_loc m l))%Z).
  { by destruct l as [|[]]. }
  destruct (_ - e)%Z; simpl; try done. by apply iter_shr_1_nonneg.
Qed.

Lemma round_nearest_even_nonneg (m : Z) (l : location) :
  (0 <= m)%Z -> (0 <= round_nearest_even m l)%Z.
Proof. intros H. destruct l as [|[]]; simpl; try done; [destruct (Z.even m)|]; lia. Qed.

Lemma binary_round_aux_sign (sx : bool) (mx ex : Z) (lx : location) :
  (0 <= mx)%Z -> sign_of (binary_round_aux prec emax sx mx ex lx) = Some sx.
Proof.
  intros H. unfold binary_round_aux.
  pose proof (shr_fexp_nonneg mx ex lx H) as H1.
  destruct (shr_fexp prec emax mx ex lx) as [mrs' e'].
  pose proof (shr_fexp_nonneg _ e' loc_Exact
                (round_nearest_even_nonneg _ (loc_of_shr_record mrs') H1)) as H2.
  destruct (shr_fexp prec emax _ e' loc_Exact) as [mrs'' e'']. simpl in H2.
  destruct (shr_m mrs'') as [|p|p]; [done| |lia].
  by destruct (_ <=? _)%Z.
Qed.

Lemma fmul_sign (x : float) (b : bool) (m : positive) (e : Z) :
  sign_of x = Some b -> sign_of (fmul x (S754_finite false m e)) = Some b.
Proof.
  destruct x as [s|s| |s mx ex]; simpl; try done; intros [= <-];
    rewrite ?xorb_false_r; try done.
  by apply binary_round_aux_sign.
Qed.

Lemma fdiv_sign (x : float) (b : bool) (m : positive) (e : Z) :
  sign_of x = Some b -> sign_of (fdiv x (S754_finite false m e)) = Some b.
Proof.
  destruct x as [s|s| |s mx ex]; simpl; try done; intros [= <-];
    rewrite ?xorb_false_r; try done.
  unfold SFdiv_core_binary.
  set (m' := match _ with Z.pos _ => _ | Z0 => _ | Z.neg _ => _ end).
  assert (Hm : (0 <= m')%Z).
  { unfold m'. destruct (_ - _ - _)%Z; try lia. apply Z.shiftl_nonneg. lia. }
  pose proof (Z.div_pos m' (Z.pos m) Hm ltac:(lia)) as Hq.
  unfold Z.div in Hq. destruct (Z.div_eucl m' (Z.pos m)) as [q r].
  by apply binary_round_aux_sign.
Qed.

Lemma iter_xO_value (d m : positive) :
  Z.pos (Pos.iter xO m d) = (Z.pos m * 2 ^ Z.pos d)%Z.
Proof.
  induction d as [|d IH] using Pos.peano_ind.
  - simpl. lia.
  - rewrite Pos.iter_succ, Pos2Z.inj_succ, Z.pow_succ_r by lia.
    rewrite Pos2Z.inj_xO, IH. lia.
Qed.

Lemma shl_align_value (m : positive) (e ez : Z) :
  (ez <= e)%Z -> Z.pos (fst (shl_align m e ez)) = (Z.pos m * 2 ^ (e - ez))%Z.
Proof.
  intros H. unfold shl_align. destruct (ez - e)%Z as [|p|p] eqn:E; simpl.
  - replace (e - ez)%Z with 0%Z by lia. simpl. lia.
  - lia.
  - replace (e - ez)%Z with (Z.pos p) by lia. apply iter_xO_value.
Qed.

Lemma two_pow_pos (e : Z) : (0 < 2 ^ e)%Q.
Proof. by apply Qpower_0_lt. Qed.

Lemma dyadic_pos (m : positive) (e : Z) : (0 < dyadic m e)%Q.
Proof.
  unfold dyadic. apply Qmult_lt_0_compat; [done | apply two_pow_pos].
Qed.

Lemma sf_to_Q_scaled (s : bool) (m : positive) (e ez : Z) :
  (ez <= e)%Z ->
  (sf_to_Q (S754_finite s m e)
   == inject_Z (cond_Zopp s (Z.pos m * 2 ^ (e - ez))) * 2 ^ ez)%Q.
Proof.
  intros H. simpl.
  assert (Hd : (dyadic m e == inject_Z (Z.pos m * 2 ^ (e - ez)) * 2 ^ ez)%Q).
  { unfold dyadic. rewrite inject_Z_mult, Zpower_Qpower by lia.
    replace e with ((e - ez) + ez)%Z at 1 by lia.
    rewrite Qpower_plus by done. change (inject_Z 2) with 2%Q. ring. }
  destruct s; simpl; rewrite Hd; [|reflexivity].
  rewrite inject_Z_opp. ring.
Qed.

Lemma binary_round_sign (sx : bool) (mx : positive) (ex : Z) :
  sign_of (binary_round prec emax sx mx ex) = Some sx.
Proof.
  unfold binary_round. destruct (shl_align _ _ _) as [mz ez].
  by apply binary_round_aux_sign.
Qed.

Lemma fsub_sign (last_close : float) (m : positive) (e : Z) :
  match last_close with
  | S754_nan => sign_of (fsub last_close (S754_finite false m e)) = None
  | S754_infinity s => sign_of (fsub last_close (S754_finite false m e)) = Some s
  | _ =>
      exists b, sign_of (fsub last_close (S754_finite false m e)) = Some b
                /\ (b = true <->
                    (sf_to_Q last_close < sf_to_Q (S754_finite false m e))%Q)
  end.
Proof.
  destruct last_close as [sl|sl| |sl ml el]; try done.
  - exists true. split; [done|]. split; [|done]. intros _. apply dyadic_pos.
  - set (ez := Z.min el e).
    set (zl := cond_Zopp sl (Z.pos ml * 2 ^ (el - ez))).
    set (zf := cond_Zopp false (Z.pos m * 2 ^ (e - ez))).
    assert (Hlt : (sf_to_Q (S754_finite sl ml el)
                   < sf_to_Q (S754_finite false m e))%Q <-> (zl < zf)%Z).
    { rewrite (sf_to_Q_scaled sl ml el ez), (sf_to_Q_scaled false m e ez)
        by (unfold ez; lia).
      rewrite Qmult_lt_r by apply two_pow_pos. by rewrite <- Zlt_Qlt. }
    unfold fsub, SFsub. fold ez. rewrite !shl_align_value by (unfold ez; lia).
    fold zl zf.
    destruct (zl - zf)%Z as [|p|p] eqn:D; simpl.
    + exists false. split; [done|]. rewrite Hlt. split; [done|lia].
    + exists false. rewrite binary_round_sign. split; [done|].
      rewrite Hlt. split; [done|lia].
    + exists true. rewrite binary_round_sign. split; [done|].
      rewrite Hlt. split; [lia|done].
Qed.

Lemma string_of_uint_not_minus (u : Decimal.uint) (tl rest : string) :
  is_negative_text ((NilZero.string_of_uint u ++ tl) ++ rest) = false.
Proof. by destruct u. Qed.

Lemma two_decimal_text_sign (s : bool) (k : Z) (rest : string) :
  is_negative_text (two_decimal_text s k ++ rest) = s.
Proof.
  unfold two_decimal_text. destruct s; [done|].
  exact (string_of_uint_not_minus _ _ rest).
Qed.

Lemma format_2f_sign (x : float) (b : bool) (rest : string) :
  sign_of x = Some b -> is_negative_text (format_2f x ++ rest) = b.
Proof.
  destruct x as [s|s| |s m e]; simpl; try done; intros [= <-].
  - apply two_decimal_text_sign.
  - by destruct s.
  - apply two_decimal_text_sign.
Qed.

Lemma change_pct_sign (last_close : float) (m : positive) (e : Z) :
  match last_close with
  | S754_nan => change_pct (S754_finite false m e) last_close = S754_nan
  | S754_infinity s =>
      sign_of (change_pct (S754_finite false m e) last_close) = Some s
  | _ =>
      exists b, sign_of (change_pct (S754_finite false m e) last_close) = Some b
                /\ (b = true <->
                    (sf_to_Q last_close < sf_to_Q (S754_finite false m e))%Q)
  end.
Proof.
  unfold change_pct. rewrite hundred_eq.
  pose proof (fsub_sign last_close m e) as H.
  destruct last_close as [sl|sl| |sl ml el]; try done.
  - destruct H as (b & Hb & Hiff). exists b. split; [|done].
    by apply fmul_sign, fdiv_sign.
  - by apply fmul_sign, fdiv_sign.
  - destruct H as (b & Hb & Hiff). exists b. split; [|done].
    by apply fmul_sign, fdiv_sign.
Qed.

Lemma two_digits_shape (k : Z) :
  (0 <= k < 100)%Z ->
  exists d1 d2, two_digits k = String d1 (String d2 EmptyString)
                /\ is_digit d1 = true /\ is_digit d2 = true.
Proof.
  intros Hk.
  assert (Hall : forallb (fun n =>
            match two_digits (Z.of_nat n) with
            | String d1 (String d2 EmptyString) => is_digit d1 && is_digit d2
            | _ => false
            end) (seq 0 100) = true) by (vm_compute; reflexivity).
  rewrite forallb_forall in Hall.
  specialize (Hall (Z.to_nat k)). rewrite Z2Nat.id in Hall by lia.
  assert (Hin : In (Z.to_nat k) (seq 0 100)) by (apply in_seq; lia).
  specialize (Hall Hin).
  destruct (two_digits k) as [|d1 [|d2 [|? ?]]]; try done.
  apply andb_true_iff in Hall as [H1 H2]. by exists d1, d2.
Qed.

Lemma append_assoc_str (a b c : string) : ((a ++ b) ++ c = a ++ (b ++ c))%string.
Proof. induction a as [|x a IH]; simpl; [done | by rewrite IH]. Qed.

Lemma two_decimal_text_shape (s : bool) (k : Z) :
  exists whole d1 d2,
    (two_decimal_text s k ++ "%" = whole ++ "." ++ String d1 (String d2 "%"))%string
    /\ is_digit d1 = true /\ is_digit d2 = true.
Proof.
  unfold two_decimal_text.
  destruct (two_digits_shape (k mod 100)) as (d1 & d2 & -> & H1 & H2).
  { apply Z.mod_pos_bound. lia. }
  exists ((if s then "-" else "") ++ digits (k / 100))%string, d1, d2.
  repeat split; try done. by rewrite !append_assoc_str.
Qed.

Lemma In_summary_entry (sym : string) (rs : list Row) (first : float)
  (later : list float) (row : SummaryRow) :
  map col_Close rs = first :: later -> In row (summary_entry sym rs) ->
  is_zero first = false
  /\ row = {| sr_symbol := sym;
              sr_start := py_round2 first;
              sr_end := py_round2 (List.last later first);
              sr_change :=
                format_2f (change_pct first (List.last later first)) ++ "%" |}.
Proof.
  intros E. pose proof (summary_entry_cases sym rs) as H. rewrite E in H.
  destruct (is_zero first) eqn:Ez; rewrite H; [done|].
  intros [<-|[]]. by split.
Qed.

(** X11.  For a finite positive first close, the change shown in a
    summary row starts with a minus sign exactly when the value of the
    last close is below that of the first, however small the fall; with
    an infinite last close it does when that is minus infinity, and with
    a NaN last close it does not. *)
Theorem summary_change_negative_iff_price_fell
  (sym : string) (rs : list Row) (first : float) (later : list float)
  (row : SummaryRow) (m : positive) (e : Z) :
  map col_Close rs = first :: later -> In row (summary_entry sym rs) ->
  first = S754_finite false m e ->
  match List.last later first with
  | S754_nan => is_negative_text (sr_change row) = false
  | S754_infinity s => is_negative_text (sr_change row) = s
  | last_close =>
      is_negative_text (sr_change row) = true
      <-> (sf_to_Q last_close < sf_to_Q first)%Q
  end.
Proof.
  intros E Hin ->. destruct (In_summary_entry _ _ _ _ _ E Hin) as [_ ->]. simpl.
  pose proof (change_pct_sign (List.last later (S754_finite false m e)) m e) as H.
  destruct (List.last later (S754_finite false m e)) as [sl|sl| |sl ml el].
  - destruct H as (b & Hb & Hiff). rewrite (format_2f_sign _ b _ Hb). by rewrite <- Hiff.
  - by apply format_2f_sign.
  - by rewrite H.
  - destruct H as (b & Hb & Hiff). rewrite (format_2f_sign _ b _ Hb). by rewrite <- Hiff.
Qed.

(** X12.  A frame whose last close is the same finite double as its
    first, whatever lies in between, is summarised with a change of
    ["0.00%"] when that close is positive and ["-0.00%"] when it is
    negative. *)
Theorem summary_change_zero_when_back_at_start
  (sym : string) (rs : list Row) (first : float) (later : list float)
  (row : SummaryRow) (sg : bool) (m : positive) (e : Z) :
  map col_Close rs = first :: later -> In row (summary_entry sym rs) ->
  List.last later first = first -> first = S754_finite sg m e ->
  sr_change row = if sg then "-0.00%" else "0.00%".
Proof.
  intros E Hin Hflat ->. destruct (In_summary_entry _ _ _ _ _ E Hin) as [_ ->].
  simpl. rewrite Hflat, change_pct_same. by destruct sg.
Qed.

(** X13.  The change shown in a summary row is ["nan%"], ["inf%"] or
    ["-inf%"], or else it ends in a decimal point, exactly two digits
    and a percent sign; it is one of the first three only when the
    percent change is not a finite double. *)
Theorem summary_change_has_two_decimals
  (sym : string) (rs : list Row) (first : float) (later : list float)
  (row : SummaryRow) :
  map col_Close rs = first :: later -> In row (summary_entry sym rs) ->
  match change_pct first (List.last later first) with
  | S754_nan => sr_change row = "nan%"
  | S754_infinity s => sr_change row = if s then "-inf%" else "inf%"
  | _ =>
      exists whole d1 d2,
        sr_change row = (whole ++ "." ++ String d1 (String d2 "%"))%string
        /\ is_digit d1 = true /\ is_digit d2 = true
  end.
Proof.
  intros E Hin. destruct (In_summary_entry _ _ _ _ _ E Hin) as [_ ->]. simpl.
  destruct (change_pct first (List.last later first)) as [s|s| |s m e]; simpl.
  - apply two_decimal_text_shape.
  - by destruct s.
  - done.
  - apply two_decimal_text_shape.
Qed.

(** X14.  The summary lists the symbols in dictionary order, one row
    for each entry that yields a row and none for the others. *)
Theorem summary_rows_follow_dictionary_order (h : Heap) (d : Dict) :
  map sr_symbol (summary_data h d)
  = keys (List.filter (fun item => negb (is_nil (summary_item h item))) d).
Proof.
  induction d as [|item t IH]; simpl; [done|].
  rewrite map_app, IH.
  destruct (summary_item_cases h item) as [->|(row & -> & E)]; simpl; [done|].
  by rewrite E.
Qed.

(** ** More on the exports (lines 39-85) *)

Lemma frames_of_tagged (h : Heap) (d : Dict) (fs : list (list Row)) :
  dict_ok h d -> frames_of h (values d) = Some fs ->
  length fs = length d
  /\ Forall (fun r => exists s, In s (keys d) /\ col_Symbol r = Some s)
       (List.concat fs).
Proof.
  revert fs. induction d as [|[k v] t IH]; intros fs Hok; simpl.
  - intros [= <-]. by split.
  - destruct (Hok k v) as (rs & Hl & _ & Htag); [by left|]. rewrite Hl.
    destruct (frames_of h (values t)) as [fs'|] eqn:Ef; [|done].
    intros [= <-]. destruct (IH fs') as [Hlen Hall]; [|done|].
    { intros s l ?. apply Hok. by right. }
    split; [simpl; by rewrite Hlen|]. simpl. apply Forall_app. split.
    + eapply Forall_impl; [exact Htag|]. intros r Hr. exists k. split; [by left|done].
    + eapply Forall_impl; [exact Hall|]. intros r (s & Hs & Hr). exists s.
      split; [by right | done].
Qed.

Lemma export_full_after_extension (st : State) (ext : Heap) (d : Dict)
  (fs : list (list Row)) (file_path : string) (io : option string) :
  latest_combined_data st = Some d -> frames_of (heap st) (values d) = Some fs ->
  fs <> [] ->
  snd (export_full_data_to_csv (with_heap st (heap st ++ ext)) file_path io)
  = snd (export_full_data_to_csv st file_path io).
Proof.
  intros Ed Hfs Hne. unfold export_full_data_to_csv. simpl. rewrite Ed.
  destruct (truthy file_path); [|done].
  rewrite (combine_frames (heap st) d fs Hfs Hne).
  rewrite (combine_frames (heap st ++ ext) d fs (frames_of_extend _ _ _ _ Hfs) Hne).
  destruct io; simpl; [done|]. unfold csv_at. by rewrite !lookup_fresh.
Qed.

Lemma export_summary_after_extension (st : State) (ext : Heap) (l : nat) (o : Obj)
  (file_path : string) (io : option string) :
  latest_summary_df st = Some l -> heap st !! l = Some o ->
  snd (export_summary_to_csv (with_heap st (heap st ++ ext)) file_path io)
  = snd (export_summary_to_csv st file_path io).
Proof.
  intros El Hl. unfold export_summary_to_csv. simpl.
  rewrite El, (lookup_extend _ ext _ _ Hl), Hl.
  destruct (obj_empty o); [done|]. destruct (truthy file_path); [|done].
  by destruct io.
Qed.

(** What a full-history export leaves behind: the same state, or the
    state with the concatenated frame appended to the heap. *)
Lemma export_full_state_cases (st : State) (file_path : string) (io : option string) :
  fst (export_full_data_to_csv st file_path io) = st
  \/ exists d fs, latest_combined_data st = Some d
       /\ frames_of (heap st) (values d) = Some fs /\ fs <> []
       /\ fst (export_full_data_to_csv st file_path io)
          = with_heap st (heap st ++ [ObjFlat (List.concat fs)]).
Proof.
  unfold export_full_data_to_csv.
  destruct (latest_combined_data st) as [d|] eqn:Ed; [|by left].
  destruct (truthy file_path); [|by left].
  destruct (combine_cases (heap st) d) as [[e ->]|(fs & Hfs & Hne & ->)]; [by left|].
  right. exists d, fs. by destruct io.
Qed.


(** X16.  A full-history export, whether it succeeded, failed or was
    cancelled, does not change what a later full-history export does,
    for any path and any outcome of the write. *)
Theorem full_export_does_not_affect_later_full_export
  (st : State) (path1 path2 : string) (io1 io2 : option string) :
  snd (export_full_data_to_csv
         (fst (export_full_data_to_csv st path1 io1)) path2 io2)
  = snd (export_full_data_to_csv st path2 io2).
Proof.
  destruct (export_full_state_cases st path1 io1)
    as [->|(d & fs & Ed & Hfs & Hne & ->)]; [done|].
  by eapply export_full_after_extension.
Qed.

(** ** More on the fetch request and the reachable states *)

Lemma expected_log_no_dialog (period interval : string)
  (asked : list (string * Outcome)) :
  List.filter is_dialog (expected_log period interval asked) = [].
Proof.
  induction asked as [|[s out] t IH]; simpl; [done|].
  rewrite List.filter_app, IH. by destruct out.
Qed.

Lemma screen_matches_store_extend (st : State) (ext : Heap) :
  screen_matches_store st -> screen_matches_store (with_heap st (heap st ++ ext)).
Proof.
  unfold screen_matches_store. simpl.
  destruct (content_frame st) as [|[pl|tb|] [|[pl2|tb2|] [|? ?]]]; try done.
  intros (d & l & Ed & Hp & El & Hl). exists d, l. repeat split; try done.
  by apply lookup_extend.
Qed.

Section DashboardMore.
Context {World : Type}.
Variable download : World -> string -> string -> string -> World * Outcome.

Local Abbreviation display := (display_crypto_data download).
Local Abbreviation fetch := (fetch_crypto_data download).

Lemma fetch_log_no_dialog (h : Heap) (w : World) (symbols : list string)
  (p i : string) :
  List.filter is_dialog (fs_log (fetch h w symbols p i)) = [].
Proof.
  unfold fetch_crypto_data. rewrite loop_log. apply expected_log_no_dialog.
Qed.

Lemma display_cases (st : State) (w : World) (entry p i : string) (gui : Gui) :
  (parse_symbols entry = [] /\ display st w entry p i gui = (st, w, [input_error]))
  \/ (parse_symbols entry <> []
      /\ display st w entry p i gui
         = show_fetched st gui (fetch (heap st) w (parse_symbols entry) p i)).
Proof.
  unfold display_crypto_data. destruct (parse_symbols entry); [by left | by right].
Qed.

Lemma display_heap (st : State) (w : World) (entry p i : string) (gui : Gui) :
  exists ext, heap (fst (fst (display st w entry p i gui))) = heap st ++ ext.
Proof.
  destruct (display_cases st w entry p i gui) as [[_ ->]|[_ ->]].
  { exists []. simpl. by rewrite app_nil_r. }
  destruct (fetch_heap download (heap st) w (parse_symbols entry) p i) as [ext Hext].
  destruct (show_fetched_outcomes st gui
              (fetch (heap st) w (parse_symbols entry) p i))
    as [[_ ->]|[(_ & e & c & _ & ->)|[(_ & _ & ->)
        |[(_ & _ & e & pr & _ & ->)|(_ & _ & _ & ->)]]]]; simpl; rewrite Hext;
    try (by exists ext); eexists; by rewrite <- app_assoc.
Qed.

Lemma step_heap (st : State) (w : World) (a : Action) :
  exists ext, heap (fst (fst (step download st w a))) = heap st ++ ext.
Proof.
  destruct a as [entry p i gui|path io|path io]; simpl.
  - apply display_heap.
  - pose proof (export_summary_state st path io) as H.
    destruct (export_summary_to_csv st path io) as [st' log]. simpl in *. subst.
    exists []. by rewrite app_nil_r.
  - destruct (export_full_state st path io) as [ext H].
    destruct (export_full_data_to_csv st path io) as [st' log]. simpl in *. subst.
    by exists ext.
Qed.

Lemma display_screen (st : State) (w : World) (entry p i : string) (gui : Gui) :
  screen_matches_store st ->
  screen_matches_store (fst (fst (display st w entry p i gui))).
Proof.
  intros H. destruct (display_cases st w entry p i gui) as [[_ ->]|[_ ->]]; [done|].
  destruct (fetch_heap download (heap st) w (parse_symbols entry) p i) as [ext Hext].
  destruct (show_fetched_outcomes st gui
              (fetch (heap st) w (parse_symbols entry) p i))
    as [[_ ->]|[(_ & e & c & _ & ->)|[(_ & _ & ->)
        |[(_ & _ & e & pr & _ & ->)|(_ & _ & _ & ->)]]]]; simpl.
  - rewrite Hext. by apply screen_matches_store_extend.
  - unfold screen_matches_store. simpl. by destruct c.
  - unfold screen_matches_store. simpl. by eexists.
  - unfold screen_matches_store. simpl. destruct pr; simpl.
    + by eexists.
    + by eexists.
    + do 2 eexists. repeat split. apply lookup_fresh.
  - unfold screen_matches_store. simpl. do 2 eexists. repeat split.
    apply lookup_fresh.
Qed.

(** X17.  No action changes an object that is already on the heap: a
    frame, once stored, stays as it was downloaded and tagged, and a
    summary table stays as it was computed. *)
Theorem actions_keep_existing_objects
  (st : State) (w : World) (a : Action) (l : nat) (o : Obj) :
  heap st !! l = Some o ->
  heap (fst (fst (step download st w a))) !! l = Some o.
Proof.
  intros H. destruct (step_heap st w a) as [ext ->]. by apply lookup_extend.
Qed.

(** X18.  Stored values are replaced but never cleared: after any
    action, histories are still stored if they were before, and so is a
    summary table. *)
Theorem stored_values_are_never_cleared (st : State) (w : World) (a : Action) :
  let st' := fst (fst (step download st w a)) in
  (latest_combined_data st <> None -> latest_combined_data st' <> None)
  /\ (latest_summary_df st <> None -> latest_summary_df st' <> None).
Proof.
  destruct a as [entry p i gui|path io|path io]; simpl.
  - destruct (display_cases st w entry p i gui) as [[_ ->]|[_ ->]]; [done|].
    destruct (show_fetched_outcomes st gui
                (fetch (heap st) w (parse_symbols entry) p i))
      as [[_ ->]|[(_ & e & c & _ & ->)|[(_ & _ & ->)
          |[(_ & _ & e & pr & _ & ->)|(_ & _ & _ & ->)]]]]; simpl; by split.
  - pose proof (export_summary_state st path io) as H.
    destruct (export_summary_to_csv st path io) as [st' log]. simpl in *. by subst.
  - destruct (export_full_state st path io) as [ext H].
    destruct (export_full_data_to_csv st path io) as [st' log]. simpl in *. by subst.
Qed.

(** X19.  In every state the program reaches, what is on screen is what
    is stored: the chart plots the symbols of the stored histories, and
    the summary panel, when there is one, shows the stored summary
    table, which is the table a summary export writes. *)
Theorem screen_shows_the_stored_data (st : State) (w : World) :
  reachable download st w -> screen_matches_store st.
Proof.
  induction 1 as [w|st w a _ IH]; [done|].
  destruct a as [entry p i gui|path io|path io]; simpl.
  - by apply display_screen.
  - pose proof (export_summary_state st path io) as H.
    destruct (export_summary_to_csv st path io) as [st' log]. simpl in *. by subst.
  - destruct (export_full_state st path io) as [ext H].
    destruct (export_full_data_to_csv st path io) as [st' log]. simpl in *. subst.
    by apply screen_matches_store_extend.
Qed.

(** X20.  A fetch request either builds the chart and the summary panel
    and shows no dialog, or shows exactly one dialog.  With the input
    warning or the "no valid data" error, the stored values and the
    widgets are left as they were.  With the "no summary" note the new
    histories are stored beside the table stored before and only the
    chart is shown.  With "An error occurred", after a call of the
    toolkit raised, the new histories are stored and the widgets shown
    before are gone: the stored table is the one stored before if the
    chart failed, and the summary of the new histories if the panel
    failed. *)
Theorem request_builds_panel_or_shows_one_dialog
  (st : State) (w : World) (entry period interval : string) (gui : Gui) :
  let st' := fst (fst (display st w entry period interval gui)) in
  let log := snd (display st w entry period interval gui) in
  (List.filter is_dialog log = [] /\ gui = GuiOk
   /\ exists d t, d <> [] /\ t <> []
        /\ latest_combined_data st' = Some d
        /\ content_frame st' = [ChartCanvas (keys d); SummaryPanel t])
  \/ (exists ev, List.filter is_dialog log = [ev]
        /\ (((ev = input_error \/ ev = no_valid_data)
             /\ latest_summary_df st' = latest_summary_df st
             /\ latest_combined_data st' = latest_combined_data st
             /\ content_frame st' = content_frame st)
            \/ (ev = no_summary
                /\ latest_summary_df st' = latest_summary_df st
                /\ exists d, d <> [] /\ latest_combined_data st' = Some d
                     /\ content_frame st' = [ChartCanvas (keys d)])
            \/ (exists e canvas, gui = ChartRaises e canvas /\ ev = gui_error e
                /\ latest_summary_df st' = latest_summary_df st
                /\ (exists d, d <> [] /\ latest_combined_data st' = Some d)
                /\ content_frame st' = if canvas then [Unfinished] else [])
            \/ (exists e progress d l t,
                  gui = PanelRaises e progress /\ ev = gui_error e
                  /\ d <> [] /\ t <> []
                  /\ latest_combined_data st' = Some d
                  /\ latest_summary_df st' = Some l
                  /\ heap st' !! l = Some (ObjSummary t)
                  /\ t = summary_data (heap st') d
                  /\ content_frame st'
                     = ChartCanvas (keys d) :: panel_left progress t))).
Proof.
  destruct (display_cases st w entry period interval gui) as [[_ ->]|[_ ->]].
  { right. exists input_error. split; [done|]. left. repeat split. by left. }
  pose proof (fetch_log_no_dialog (heap st) w (parse_symbols entry) period interval)
    as Hlog.
  pose proof (fetch_dict_ok download (heap st) w (parse_symbols entry) period interval)
    as Hok.
  destruct (show_fetched_outcomes st gui
              (fetch (heap st) w (parse_symbols entry) period interval))
    as [[_ ->]|[(Hd & e & c & -> & ->)|[(Hd & _ & ->)
        |[(Hd & Hs & e & pr & -> & ->)|(Hd & Hs & -> & ->)]]]]; simpl.
  - right. exists no_valid_data. rewrite List.filter_app, Hlog.
    split; [done|]. left. repeat split. by right.
  - right. exists (gui_error e). rewrite List.filter_app, Hlog. split; [done|].
    right. right. left. exists e, c. repeat split. by eexists.
  - right. exists no_summary. rewrite List.filter_app, Hlog. split; [done|].
    right. left. repeat split. by eexists.
  - right. exists (gui_error e). rewrite List.filter_app, Hlog. split; [done|].
    right. right. right. exists e, pr. do 3 eexists.
    split; [done|]. split; [done|]. split; [exact Hd|]. split; [exact Hs|].
    split; [done|]. split; [done|]. split; [apply lookup_fresh|].
    split; [|done]. by rewrite summary_data_extend.
  - left. repeat split; [done|]. by do 2 eexists.
Qed.

(** C8.  The input is split on commas: the pieces joined by commas are
    the input and no piece contains a comma.  Each piece is trimmed:
    it is its trimmed form between two runs of white space, and the
    trimmed form neither starts nor ends with white space, white space
    being the characters [str.isspace] accepts.  The symbols are the
    trimmed pieces that are not empty, in order.  With none left the
    request ends with the input warning, the state and the data source
    untouched and nothing downloaded; otherwise the fetcher runs on
    exactly those symbols, and downloads each of them. *)
Theorem symbol_input_parsed_then_fetched
  (st : State) (w : World) (entry period interval : string) (gui : Gui) :
  let pieces := split "," entry in
  let symbols :=
    List.filter (fun s => negb (String.eqb s "")) (map strip pieces) in
  (join "," pieces = entry /\ forall p, In p pieces -> contains "," p = false)
  /\ (forall p, In p pieces ->
        exists a b, p = (a ++ strip p ++ b)%string
          /\ all_space a = true /\ all_space b = true
          /\ (forall c, str_head (strip p) = Some c -> is_space c = false)
          /\ (forall c, str_last (strip p) = Some c -> is_space c = false))
  /\ (forall c, is_space c
                = existsb (Nat.eqb (nat_of_ascii c))
                    [9; 10; 11; 12; 13; 28; 29; 30; 31; 32; 133; 160])
  /\ parse_symbols entry = symbols
  /\ spec_parse entry = symbols
  /\ display st w entry period interval gui =
     match symbols with
     | [] => (st, w, [input_error])
     | _ :: _ =>
         show_fetched st gui (fetch (heap st) w symbols period interval)
     end
  /\ download_calls (snd (display st w entry period interval gui))
     = map (fun sym => (sym, period, interval)) symbols.
Proof.
  cbv zeta.
  assert (parse_symbols entry
          = List.filter (fun s => negb (String.eqb s "")) (map strip (split "," entry)))
    as Hparse.
  { unfold parse_symbols.
    induction (split "," entry) as [|piece rest IH]; simpl; [done|].
    destruct (strip piece) as [|c t] eqn:E; simpl; [done|]. by rewrite E, IH. }
  split; [split; [apply join_split | apply split_pieces_no_sep]|].
  split.
  { intros p _. destruct (rstrip_spec p) as (b & Hb & Hsb).
    destruct (lstrip_spec (rstrip p)) as (a & Ha & Hsa).
    exists a, b. repeat split; try done.
    - unfold strip. rewrite Hb at 1. rewrite Ha at 1.
      clear. induction a as [|c a IH]; simpl; [done | by rewrite IH].
    - intros c. apply lstrip_head.
    - intros c Hc. apply lstrip_last in Hc. by apply rstrip_last in Hc. }
  split.
  { intros c. unfold is_space.
    destruct c as [[] [] [] [] [] [] [] []]; reflexivity. }
  split; [done|].
  split; [by rewrite <- parse_symbols_spec|].
  rewrite <- Hparse. unfold display_crypto_data.
  destruct (parse_symbols entry) as [|sym rest] eqn:E; [by split|].
  split; [done|]. simpl is_nil. cbv iota.
  rewrite show_fetched_calls. unfold fetch_crypto_data.
  by rewrite fetch_loop_calls.
Qed.

(** X21.  In a reachable state with export buttons, a summary export to
    a chosen path whose write succeeds writes the header and one line
    per row of the summary of the histories stored at that moment. *)
Theorem summary_export_writes_summary_of_stored_histories
  (st : State) (w : World) (d : Dict) (file_path : string) :
  reachable download st w -> has_export_buttons st = true ->
  latest_combined_data st = Some d -> truthy file_path = true ->
  written_files (snd (export_summary_to_csv st file_path None))
  = [(file_path,
      CsvLines (summary_header :: map summary_cells (summary_data (heap st) d)))]
  /\ summary_data (heap st) d <> [].
Proof.
  intros Hr Hb Ed Hp. destruct (reachable_inv download st w Hr) as (_ & Hsum & Hc).
  destruct (Hc Hb) as (d' & l & Ed' & El & Hl).
  assert (d' = d) by congruence. subst d'.
  destruct (Hsum l El) as (t & Ht & Hne).
  assert (t = summary_data (heap st) d) by congruence. subst t.
  split; [|done]. unfold export_summary_to_csv. rewrite El, Hl, Hp. simpl.
  by destruct (summary_data (heap st) d).
Qed.

(** X22.  In a reachable state with stored histories, a full-history
    export to a chosen path whose write succeeds writes one file, made
    from a frame whose index has been turned into a column and whose
    rows are the rows of every stored frame, in dictionary order; every
    such row carries the symbol of a stored entry. *)
Theorem full_export_writes_every_stored_row
  (st : State) (w : World) (d : Dict) (file_path : string) :
  reachable download st w -> latest_combined_data st = Some d ->
  truthy file_path = true ->
  exists frames,
    frames_of (heap st) (values d) = Some frames
    /\ length frames = length d
    /\ written_files (snd (export_full_data_to_csv st file_path None))
       = [(file_path, CsvOfPrices true (List.concat frames))]
    /\ Forall (fun r => exists s, In s (keys d) /\ col_Symbol r = Some s)
         (List.concat frames).
Proof.
  intros Hr Ed Hp. destruct (reachable_inv download st w Hr) as (Hd & _ & _).
  destruct (Hd d Ed) as (Hne & Hok & _).
  destruct (frames_of_dict_ok (heap st) d Hok) as (fs & Hfs & Hfne & _).
  destruct (frames_of_tagged (heap st) d fs Hok Hfs) as [Hlen Htag].
  exists fs. repeat split; try done.
  unfold export_full_data_to_csv. rewrite Ed, Hp.
  rewrite (combine_frames (heap st) d fs Hfs (Hfne Hne)). simpl.
  unfold csv_at. by rewrite lookup_fresh.
Qed.

(** X23.  In a reachable state no export lets an exception escape, and
    the only error box an export can show is the one for a failed file
    write. *)
Theorem exports_fail_only_on_file_write
  (st : State) (w : World) (file_path : string) (io : option string) (ev : Event) :
  reachable download st w ->
  In ev (snd (export_summary_to_csv st file_path io)
         ++ snd (export_full_data_to_csv st file_path io)) ->
  (forall msg, ev <> EvUncaught msg)
  /\ (forall title msg, ev = EvShowError title msg ->
        exists e, io = Some e /\ truthy file_path = true).
Proof.
  intros Hr Hin. destruct (reachable_inv download st w Hr) as (Hd & Hsum & _).
  apply in_app_iff in Hin as [Hin|Hin].
  - unfold export_summary_to_csv in Hin.
    destruct (latest_summary_df st) as [l|] eqn:El.
    + destruct (Hsum l eq_refl) as (t & Ht & Hne). rewrite Ht in Hin.
      destruct t as [|r t]; [done|]. simpl in Hin.
      destruct (truthy file_path) eqn:Ep; [|done].
      destruct io as [e|]; simpl in Hin.
      * destruct Hin as [<-|[]]. split; [done|]. intros ? ? _. by exists e.
      * destruct Hin as [<-|[<-|[]]]; by split.
    + destruct Hin as [<-|[]]. by split.
  - unfold export_full_data_to_csv in Hin.
    destruct (latest_combined_data st) as [d|] eqn:Ed.
    + destruct (Hd d eq_refl) as (Hne & Hok & _).
      destruct (frames_of_dict_ok (heap st) d Hok) as (fs & Hfs & Hfne & _).
      rewrite (combine_frames (heap st) d fs Hfs (Hfne Hne)) in Hin.
      destruct (truthy file_path) eqn:Ep; [|done].
      destruct io as [e|]; simpl in Hin.
      * destruct Hin as [<-|[]]. split; [done|]. intros ? ? _. by exists e.
      * destruct Hin as [<-|[<-|[]]]; by split.
    + destruct Hin as [<-|[]]. by split.
Qed.


(** X25.  In a reachable state a full-history export, whatever its
    outcome, does not change what a later summary export does. *)
Theorem full_export_does_not_affect_later_summary_export
  (st : State) (w : World) (path1 path2 : string) (io1 io2 : option string) :
  reachable download st w ->
  snd (export_summary_to_csv
         (fst (export_full_data_to_csv st path1 io1)) path2 io2)
  = snd (export_summary_to_csv st path2 io2).
Proof.
  intros Hr. destruct (reachable_inv download st w Hr) as (_ & Hsum & _).
  destruct (export_full_state st path1 io1) as [ext ->].
  destruct (latest_summary_df st) as [l|] eqn:El.
  - destruct (Hsum l eq_refl) as (t & Ht & _).
    by eapply export_summary_after_extension.
  - unfold export_summary_to_csv. simpl. by rewrite El.
Qed.
End DashboardMore.

(** ** Instances of the further properties *)

Ltac distinct_strings :=
  repeat (apply NoDup_cons_2;
          [intros H;
           repeat (apply elem_of_cons in H as [H|H]; [discriminate H|]);
           by apply elem_of_nil in H|]);
  apply NoDup_nil_2.

(** The second piece of an input with stray blanks and a trailing comma. *)
Lemma parsed_symbols_are_clean_witness :
  In "ETH-USD" (parse_symbols typed_entry) /\ clean_symbol "ETH-USD" = true.
Proof.
  assert (H : In "ETH-USD" (parse_symbols typed_entry)) by (right; by left).
  split; [exact H | exact (parsed_symbols_are_clean typed_entry "ETH-USD" H)].
Defined.

Lemma parsed_symbols_come_from_input_witness :
  In "ETH-USD" (parse_symbols typed_entry)
  /\ join "," (split "," typed_entry) = typed_entry
  /\ exists piece a b,
       In piece (split "," typed_entry) /\ piece = (a ++ "ETH-USD" ++ b)%string
       /\ all_space a = true /\ all_space b = true.
Proof.
  assert (H : In "ETH-USD" (parse_symbols typed_entry)) by (right; by left).
  split; [exact H | exact (parsed_symbols_come_from_input typed_entry "ETH-USD" H)].
Defined.

Lemma parse_join_round_trip_witness :
  Forall (fun s => clean_symbol s = true) ["BTC-USD"; "ETH-USD"; "BTC-USD"]
  /\ parse_symbols (join "," ["BTC-USD"; "ETH-USD"; "BTC-USD"])
     = ["BTC-USD"; "ETH-USD"; "BTC-USD"].
Proof.
  assert (H : Forall (fun s => clean_symbol s = true)
                ["BTC-USD"; "ETH-USD"; "BTC-USD"]) by (by repeat constructor).
  split; [exact H | exact (parse_join_round_trip _ H)].
Defined.

(** Fetching another symbol on the heap left by a first fetch. *)
Lemma fetch_keeps_existing_objects_witness :
  fs_heap one_row_fetch !! 0 = Some (ObjPrices [tag_row "ONE" (demo_row 1 7)])
  /\ fs_heap (fetch_crypto_data demo_download (fs_heap one_row_fetch) 1
                ["AAA"] "1mo" "1d") !! 0
     = Some (ObjPrices [tag_row "ONE" (demo_row 1 7)]).
Proof.
  split; [reflexivity|].
  exact (fetch_keeps_existing_objects demo_download "1mo" "1d"
           (fs_heap one_row_fetch) 1 ["AAA"] 0 _ eq_refl).
Defined.

(** The entry kept for a symbol asked for twice. *)
Lemma fetched_frames_are_downloads_tagged_witness :
  In ("AAA", 1) (fs_dict twice_requested)
  /\ exists rs, rs <> []
       /\ In ("AAA", ReturnsFrame rs)
            (List.combine ["AAA"; "AAA"]
               (attempts demo_download "1mo" "1d" ["AAA"; "AAA"] 0))
       /\ fs_heap twice_requested !! 1 = Some (ObjPrices (map (tag_row "AAA") rs))
       /\ Forall (fun r => col_Symbol r = Some "AAA") (map (tag_row "AAA") rs).
Proof.
  assert (H : In ("AAA", 1) (fs_dict twice_requested)) by (by left).
  split; [exact H|].
  exact (fetched_frames_are_downloads_tagged demo_download "1mo" "1d"
           [] 0 ["AAA"; "AAA"] "AAA" 1 H).
Defined.

Lemma last_usable_download_wins_witness :
  demo_download (fs_world (fetch_crypto_data demo_download [] 0 ["AAA"] "1mo" "1d"))
    "AAA" "1mo" "1d" = (2, ReturnsFrame rising_rows)
  /\ ~ In "AAA" ["ONE"]
  /\ exists l,
       dict_get "AAA"
         (fs_dict (fetch_crypto_data demo_download [] 0 (["AAA"] ++ "AAA" :: ["ONE"])
                     "1mo" "1d")) = Some l
       /\ fs_heap (fetch_crypto_data demo_download [] 0 (["AAA"] ++ "AAA" :: ["ONE"])
                     "1mo" "1d") !! l
          = Some (ObjPrices (map (tag_row "AAA") rising_rows)).
Proof.
  assert (H : ~ In "AAA" ["ONE"]) by (intros [H|[]]; discriminate H).
  split; [reflexivity|]. split; [exact H|].
  exact (last_usable_download_wins demo_download "1mo" "1d" [] 0 2
           ["AAA"] ["ONE"] "AAA" (demo_row 1 10)
           [demo_row 2 12; demo_row 3 15] eq_refl H).
Defined.

Lemma keys_are_usable_symbols_in_order_witness :
  NoDup mixed_symbols
  /\ keys (fs_dict (fetch_crypto_data demo_download [] 0 mixed_symbols "1mo" "1d"))
     = ["AAA"; "ONE"].
Proof.
  assert (H : NoDup mixed_symbols) by (unfold mixed_symbols; distinct_strings).
  split; [exact H|].
  exact (keys_are_usable_symbols_in_order demo_download "1mo" "1d" [] 0
           mixed_symbols H).
Defined.

Lemma summary_change_negative_iff_price_fell_witness :
  map col_Close falling_rows = [of_Z 10; of_Z 8]
  /\ In (summary_row_of "DOWN" (of_Z 10) (of_Z 8)) (summary_entry "DOWN" falling_rows)
  /\ of_Z 10 = S754_finite false 5629499534213120 (-49)
  /\ (is_negative_text (sr_change (summary_row_of "DOWN" (of_Z 10) (of_Z 8))) = true
      <-> (sf_to_Q (of_Z 8) < sf_to_Q (of_Z 10))%Q).
Proof.
  assert (H : In (summary_row_of "DOWN" (of_Z 10) (of_Z 8))
                (summary_entry "DOWN" falling_rows)) by (by left).
  split; [reflexivity|]. split; [exact H|]. split; [reflexivity|].
  exact (summary_change_negative_iff_price_fell "DOWN" falling_rows (of_Z 10)
           [of_Z 8] (summary_row_of "DOWN" (of_Z 10) (of_Z 8))
           5629499534213120 (-49) eq_refl H eq_refl).
Defined.

Lemma summary_change_zero_when_back_at_start_witness :
  map col_Close returning_rows = [of_Z 10; of_Z 12; of_Z 10]
  /\ In (summary_row_of "BACK" (of_Z 10) (of_Z 10))
        (summary_entry "BACK" returning_rows)
  /\ List.last [of_Z 12; of_Z 10] (of_Z 10) = of_Z 10
  /\ of_Z 10 = S754_finite false 5629499534213120 (-49)
  /\ sr_change (summary_row_of "BACK" (of_Z 10) (of_Z 10)) = "0.00%".
Proof.
  assert (H : In (summary_row_of "BACK" (of_Z 10) (of_Z 10))
                (summary_entry "BACK" returning_rows)) by (by left).
  split; [reflexivity|]. split; [exact H|]. split; [reflexivity|].
  split; [reflexivity|].
  exact (summary_change_zero_when_back_at_start "BACK" returning_rows (of_Z 10)
           [of_Z 12; of_Z 10] (summary_row_of "BACK" (of_Z 10) (of_Z 10))
           false 5629499534213120 (-49) eq_refl H eq_refl eq_refl).
Defined.

Lemma summary_change_has_two_decimals_witness :
  map col_Close falling_rows = [of_Z 10; of_Z 8]
  /\ In (summary_row_of "DOWN" (of_Z 10) (of_Z 8)) (summary_entry "DOWN" falling_rows)
  /\ exists whole d1 d2,
       sr_change (summary_row_of "DOWN" (of_Z 10) (of_Z 8))
       = (whole ++ "." ++ String d1 (String d2 "%"))%string
       /\ is_digit d1 = true /\ is_digit d2 = true.
Proof.
  assert (H : In (summary_row_of "DOWN" (of_Z 10) (of_Z 8))
                (summary_entry "DOWN" falling_rows)) by (by left).
  split; [reflexivity|]. split; [exact H|].
  exact (summary_change_has_two_decimals "DOWN" falling_rows (of_Z 10) [of_Z 8]
           _ eq_refl H).
Defined.

Lemma after_first_request_reachable :
  reachable demo_download (fst after_first_request) (snd after_first_request).
Proof. apply run_reachable, reachable_start. Qed.


(** The first stored frame is still there after a second request, whose
    chart fails. *)
Lemma actions_keep_existing_objects_witness :
  heap (fst after_first_request) !! 0
  = Some (ObjPrices (map (tag_row "AAA") rising_rows))
  /\ heap (fst (fst (step demo_download (fst after_first_request)
                       (snd after_first_request) failing_request))) !! 0
     = Some (ObjPrices (map (tag_row "AAA") rising_rows)).
Proof.
  split; [reflexivity|].
  exact (actions_keep_existing_objects demo_download (fst after_first_request)
           (snd after_first_request) failing_request 0 _ eq_refl).
Defined.

(** After a request with a summary and one without: only the chart is
    on screen, and it plots the stored symbol. *)
Lemma screen_shows_the_stored_data_witness :
  reachable demo_download (fst after_two_requests) (snd after_two_requests)
  /\ screen_matches_store (fst after_two_requests).
Proof.
  assert (Hr : reachable demo_download (fst after_two_requests)
                 (snd after_two_requests))
    by apply run_reachable, reachable_start.
  split; [exact Hr | exact (screen_shows_the_stored_data demo_download _ _ Hr)].
Defined.

Lemma summary_export_writes_summary_of_stored_histories_witness :
  reachable demo_download (fst after_first_request) (snd after_first_request)
  /\ has_export_buttons (fst after_first_request) = true
  /\ latest_combined_data (fst after_first_request) = Some [("AAA", 0)]
  /\ truthy "summary.csv" = true
  /\ written_files
       (snd (export_summary_to_csv (fst after_first_request) "summary.csv" None))
     = [("summary.csv",
         CsvLines
           (summary_header
              :: map summary_cells
                   (summary_data (heap (fst after_first_request)) [("AAA", 0)])))].
Proof.
  split; [exact after_first_request_reachable|]. repeat (split; [reflexivity|]).
  exact (proj1 (summary_export_writes_summary_of_stored_histories demo_download
                  (fst after_first_request) (snd after_first_request)
                  [("AAA", 0)] "summary.csv" after_first_request_reachable
                  eq_refl eq_refl eq_refl)).
Defined.

Lemma full_export_writes_every_stored_row_witness :
  reachable demo_download (fst after_first_request) (snd after_first_request)
  /\ latest_combined_data (fst after_first_request) = Some [("AAA", 0)]
  /\ truthy "full.csv" = true
  /\ exists frames,
       frames_of (heap (fst after_first_request)) (values [("AAA", 0)])
       = Some frames
       /\ length frames = 1.
Proof.
  split; [exact after_first_request_reachable|]. repeat (split; [reflexivity|]).
  destruct (full_export_writes_every_stored_row demo_download
              (fst after_first_request) (snd after_first_request)
              [("AAA", 0)] "full.csv" after_first_request_reachable
              eq_refl eq_refl) as (frames & Hf & Hlen & _).
  exists frames. by split.
Defined.

(** A full-history export whose file write fails. *)
Lemma exports_fail_only_on_file_write_witness :
  reachable demo_download (fst after_first_request) (snd after_first_request)
  /\ In (EvShowError "Error" ("Failed to export full dataset:" ++ nl ++ "disk full"))
        (snd (export_summary_to_csv (fst after_first_request) "full.csv"
                (Some "disk full"))
         ++ snd (export_full_data_to_csv (fst after_first_request) "full.csv"
                   (Some "disk full")))
  /\ exists e, Some "disk full" = Some e /\ truthy "full.csv" = true.
Proof.
  assert (H : In (EvShowError "Error"
                    ("Failed to export full dataset:" ++ nl ++ "disk full"))
                (snd (export_summary_to_csv (fst after_first_request) "full.csv"
                        (Some "disk full"))
                 ++ snd (export_full_data_to_csv (fst after_first_request)
                           "full.csv" (Some "disk full"))))
    by (right; by left).
  split; [exact after_first_request_reachable|]. split; [exact H|].
  exact (proj2 (exports_fail_only_on_file_write demo_download
                  (fst after_first_request) (snd after_first_request)
                  "full.csv" (Some "disk full") _
                  after_first_request_reachable H) _ _ eq_refl).
Defined.


Lemma full_export_does_not_affect_later_summary_export_witness :
  reachable demo_download (fst after_first_request) (snd after_first_request)
  /\ snd (export_summary_to_csv
            (fst (export_full_data_to_csv (fst after_first_request)
                    "full.csv" (Some "disk full")))
            "summary.csv" None)
     = snd (export_summary_to_csv (fst after_first_request) "summary.csv" None).
Proof.
  split; [exact after_first_request_reachable|].
  exact (full_export_does_not_affect_later_summary_export demo_download
           (fst after_first_request) (snd after_first_request)
           "full.csv" "summary.csv" (Some "disk full") None
           after_first_request_reachable).
Defined.
